(** * SRTP cryptographic context (srtp.go): a shallow embedding and its properties

    The development follows the layout of [srtp.go]:
    - the primitives of Go's standard library that the package calls
      ([crypto/aes], [crypto/cipher]'s CTR mode, [encoding/binary]) and the
      slice operations of the language ([make], [copy], [append], reslicing)
      over an explicit store of backing arrays;
    - the [Context] record and the functions [CreateContext],
      [generateSessionKey], [generateSessionSalt], [generateCounter],
      [updateRolloverCount] and [DecryptPacket];
    - the properties of these functions.

    Conventions.  A byte is a [Z] in [0, 256), a [uint16] a [Z] in
    [0, 2^16), a [uint32] a [Z] in [0, 2^32); arithmetic on them is written
    with its wrap-around.  A Go run-time panic is a value of [panic]. *)

From Stdlib Require Import ZArith List Lia Bool String.
From stdpp Require Import base list numbers.
Import ListNotations.

Local Open Scope Z_scope.

(** ** Outcomes of Go code *)

(** The run-time panics that the code of [srtp.go] and the library functions
    it calls can raise. *)
Inductive panic : Type :=
| IndexOutOfRange (i : Z) (len : nat)          (* a[i] with i outside [0, len) *)
| SliceBoundsOutOfRange (hi : Z) (cap : nat)   (* a[:hi] with hi outside [0, cap] *)
| NilDereference                               (* method call on a nil interface *)
| LibraryPanic (msg : nat).                    (* explicit panic(...) in a library *)

(** Library panics, numbered. *)
Definition aes_input_not_full_block : nat := 0%nat.
Definition ctr_iv_length_mismatch : nat := 1%nat.

(** A call of a Go function of result type [A] either returns or panics. *)
Inductive outcome (A : Type) : Type :=
| Returns (a : A)
| Panics (p : panic).
Arguments Returns {A} a.
Arguments Panics {A} p.

(** Sequencing: a panic ends the computation.  With these instances
    [x ← m; k] is the notation for it. *)
#[export] Instance outcome_ret : MRet outcome := fun A a => Returns a.
#[export] Instance outcome_bind : MBind outcome := fun A B k m =>
  match m with
  | Returns a => k a
  | Panics p => Panics p
  end.

(** ** Bytes *)

Definition byte_of (z : Z) : Z := Z.land z 255.

Definition xor_bytes (a b : list Z) : list Z := zip_with Z.lxor a b.

(** ** crypto/aes: the AES block cipher (FIPS-197) *)

Module aes.

Definition BlockSize : nat := 16%nat.

(** Multiplication by [x] in GF(2^8) modulo [x^8 + x^4 + x^3 + x + 1]. *)
Definition xtime (a : Z) : Z :=
  let b := Z.land (Z.shiftl a 1) 255 in
  if Z.testbit a 7 then Z.lxor b 27 else b.

(** Multiplication in GF(2^8), by shift and add over the 8 bits of [b]. *)
Fixpoint gmul_loop (n : nat) (a b acc : Z) : Z :=
  match n with
  | O => acc
  | S n' =>
      gmul_loop n' (xtime a) (Z.shiftr b 1)
        (if Z.testbit b 0 then Z.lxor acc a else acc)
  end.
Definition gmul (a b : Z) : Z := gmul_loop 8 a b 0.

Fixpoint gpow (a : Z) (n : nat) : Z :=
  match n with
  | O => 1
  | S n' => gmul a (gpow a n')
  end.

Definition rotl8 (b : Z) (k : Z) : Z :=
  Z.land (Z.lor (Z.shiftl b k) (Z.shiftr b (8 - k))) 255.

(** The S-box entry of [a]: the multiplicative inverse of [a] (0 for 0)
    followed by the affine transformation. *)
Definition sbox_entry (a : Z) : Z :=
  let b := gpow a 254 in
  Z.lxor (Z.lxor (Z.lxor (Z.lxor (Z.lxor b (rotl8 b 1)) (rotl8 b 2)) (rotl8 b 3))
            (rotl8 b 4)) 99.

(** [sbox0] of [crypto/aes/const.go]. *)
Definition sbox0 : list Z := Eval vm_compute in map sbox_entry (seqZ 0 256).

Definition sbox (a : Z) : Z := nth (Z.to_nat a) sbox0 0.

(** [powx] of [crypto/aes/const.go]: the powers of [x]. *)
Fixpoint powx (i : nat) : Z :=
  match i with
  | O => 1
  | S i' => xtime (powx i')
  end.

(** A 32-bit word of the key schedule, as its four bytes, most significant
    first. *)
Definition word : Type := (Z * Z * Z * Z)%type.

Definition rotw (w : word) : word := let '(a, b, c, d) := w in (b, c, d, a).
Definition subw (w : word) : word :=
  let '(a, b, c, d) := w in (sbox a, sbox b, sbox c, sbox d).
Definition xorw (v w : word) : word :=
  let '(a, b, c, d) := v in
  let '(a', b', c', d') := w in
  (Z.lxor a a', Z.lxor b b', Z.lxor c c', Z.lxor d d').
Definition zerow : word := (0, 0, 0, 0).

Fixpoint key_words (key : list Z) : list word :=
  match key with
  | a :: b :: c :: d :: rest => (a, b, c, d) :: key_words rest
  | _ => []
  end.

(** The second loop of [expandKeyGo]: [enc] holds the words computed so
    far, [n] more are appended. *)
Fixpoint expand_loop (n : nat) (nk : nat) (enc : list word) : list word :=
  match n with
  | O => enc
  | S n' =>
      let i := length enc in
      let t := nth (i - 1) enc zerow in
      let t' :=
        if (i mod nk =? 0)%nat
        then xorw (subw (rotw t)) (powx (i / nk - 1), 0, 0, 0)
        else if ((6 <? nk) && (i mod nk =? 4))%nat then subw t
        else t in
      expand_loop n' nk (enc ++ [xorw (nth (i - nk) enc zerow) t'])
  end.

(** [expandKeyGo]: the encryption key schedule, [len(key) + 28] words. *)
Definition expandKey (key : list Z) : list word :=
  let nk := (length key / 4)%nat in
  expand_loop (length key + 28 - nk) nk (key_words key).

Definition word_bytes (w : word) : list Z := let '(a, b, c, d) := w in [a; b; c; d].

(** The 16 bytes of round key [r]. *)
Definition round_key (enc : list word) (r : nat) : list Z :=
  concat (map word_bytes (take 4 (drop (4 * r) enc))).

Definition add_round_key (enc : list word) (r : nat) (st : list Z) : list Z :=
  imap (fun i x => Z.lxor x (nth i (round_key enc r) 0)) st.

Definition sub_bytes (st : list Z) : list Z := map sbox st.

Definition shift_rows (st : list Z) : list Z :=
  map (fun i => nth i st 0)
    [0; 5; 10; 15; 4; 9; 14; 3; 8; 13; 2; 7; 12; 1; 6; 11]%nat.

Definition mix_column (c : nat) (st : list Z) : list Z :=
  let a0 := nth (4 * c) st 0 in
  let a1 := nth (4 * c + 1) st 0 in
  let a2 := nth (4 * c + 2) st 0 in
  let a3 := nth (4 * c + 3) st 0 in
  [ Z.lxor (Z.lxor (Z.lxor (gmul a0 2) (gmul a1 3)) a2) a3;
    Z.lxor (Z.lxor (Z.lxor a0 (gmul a1 2)) (gmul a2 3)) a3;
    Z.lxor (Z.lxor (Z.lxor a0 a1) (gmul a2 2)) (gmul a3 3);
    Z.lxor (Z.lxor (Z.lxor (gmul a0 3) a1) a2) (gmul a3 2) ].

Definition mix_columns (st : list Z) : list Z :=
  mix_column 0 st ++ mix_column 1 st ++ mix_column 2 st ++ mix_column 3 st.

(** The middle rounds [r], [r + 1], ..., [r + n - 1]. *)
Fixpoint rounds (n : nat) (enc : list word) (r : nat) (st : list Z) : list Z :=
  match n with
  | O => st
  | S n' =>
      rounds n' enc (S r)
        (add_round_key enc r (mix_columns (shift_rows (sub_bytes st))))
  end.

(** Encryption of the 16-byte block [src] under the key schedule [enc]. *)
Definition encryptBlock (enc : list word) (src : list Z) : list Z :=
  let nr := (length enc / 4 - 1)%nat in
  let st := add_round_key enc 0 (take 16 src) in
  let st := rounds (nr - 1) enc 1 st in
  add_round_key enc nr (shift_rows (sub_bytes st)).

(** [cipher.Block] as [aes.NewCipher] builds it: the key schedule. *)
Record Block : Type := mkBlock { enc : list word }.

(** [aes.KeySizeError]. *)
Definition KeySizeError : Type := nat.

(** [aes.NewCipher]: the key must be 16, 24 or 32 bytes long. *)
Definition NewCipher (key : list Z) : Block + KeySizeError :=
  let k := length key in
  if ((k =? 16) || (k =? 24) || (k =? 32))%nat
  then inl (mkBlock (expandKey key))
  else inr k.

(** [Block.Encrypt(dst, src)] on values: the encryption of the first block
    of [src]; a panic when [src] is shorter than a block. *)
Definition Encrypt (b : Block) (src : list Z) : outcome (list Z) :=
  if (length src <? BlockSize)%nat
  then Panics (LibraryPanic aes_input_not_full_block)
  else Returns (encryptBlock (enc b) src).

End aes.

(** ** encoding/binary *)

Module binary.

(** [binary.BigEndian.PutUint32(b[off:], v)]: the four bytes of [v], most
    significant first, written at [off]; the function first reads [b[3]]
    of the slice it is given. *)
Definition PutUint32 (b : list Z) (off : nat) (v : Z) : outcome (list Z) :=
  if (off + 4 <=? length b)%nat
  then Returns (<[(off + 3)%nat := byte_of v]>
               (<[(off + 2)%nat := byte_of (Z.shiftr v 8)]>
               (<[(off + 1)%nat := byte_of (Z.shiftr v 16)]>
               (<[off := byte_of (Z.shiftr v 24)]> b))))
  else Panics (IndexOutOfRange 3 (length b - off)).

End binary.

(** ** crypto/cipher: counter mode *)

Module cipher.

(** The increment of the counter in [ctr.refill]: from the last byte
    towards the first, stopping at the first byte that does not wrap to 0.
    [inc_rev] works on the reversed counter. *)
Fixpoint inc_rev (l : list Z) : list Z :=
  match l with
  | [] => []
  | x :: r =>
      let y := (x + 1) mod 256 in
      if y =? 0 then y :: inc_rev r else y :: r
  end.
Definition inc (ctr : list Z) : list Z := rev (inc_rev (rev ctr)).

(** The key stream of [n] blocks from the counter [ctr]. *)
Fixpoint keystream (n : nat) (b : aes.Block) (ctr : list Z) : list Z :=
  match n with
  | O => []
  | S n' => aes.encryptBlock (aes.enc b) ctr ++ keystream n' b (inc ctr)
  end.

(** The stream that [cipher.NewCTR] returns: the block and the counter. *)
Record Stream : Type := mkStream { b : aes.Block; ctr : list Z }.

(** [cipher.NewCTR(block, iv)]: [block] is an interface value, [None] when
    nil; the IV must have the length of a block. *)
Definition NewCTR (block : option aes.Block) (iv : list Z) : outcome Stream :=
  match block with
  | None => Panics NilDereference
  | Some blk =>
      if (length iv =? aes.BlockSize)%nat
      then Returns (mkStream blk iv)
      else Panics (LibraryPanic ctr_iv_length_mismatch)
  end.

(** [stream.XORKeyStream(dst, src)] on values, for a stream not used
    before: byte [i] of the result is [src[i]] xor byte [i] of the key
    stream. *)
Definition XORKeyStream (s : Stream) (src : list Z) : list Z :=
  xor_bytes src (keystream ((length src + 15) / 16) (b s) (ctr s)).

End cipher.

(** ** srtp.go: constants and the context *)

Definition labelEncryption : Z := 0.
Definition labelSalt : Z := 2.

Definition keyLen : nat := 16%nat.
Definition saltLen : nat := 14%nat.

Definition maxROCDisorder : Z := 100.
Definition maxSequenceNumber : Z := 65535.

(** [uint32] arithmetic. *)
Definition uint32 (z : Z) : Z := z mod 2 ^ 32.

(** The errors that [CreateContext] returns: the two [errors.Errorf] of
    [CreateContext] and the [aes.KeySizeError] of [aes.NewCipher]. *)
Inductive Error : Type :=
| MasterKeyLenError (got : nat)
| MasterSaltLenError (got : nat)
| CipherError (e : aes.KeySizeError).

(** [Context].  The byte slices of a context are private to it once it is
    built and are held by value; [block] is [None] for the nil interface. *)
Record Context : Type := mkContext {
  ssrc : Z;
  rolloverCounter : Z;
  rolloverHasProcessed : bool;
  lastSequenceNumber : Z;
  masterKey : list Z;
  masterSalt : list Z;
  sessionKey : list Z;
  sessionSalt : list Z;
  block : option aes.Block
}.

Definition set_ssrc (v : Z) (c : Context) : Context :=
  mkContext v (rolloverCounter c) (rolloverHasProcessed c) (lastSequenceNumber c)
    (masterKey c) (masterSalt c) (sessionKey c) (sessionSalt c) (block c).
Definition set_rolloverCounter (v : Z) (c : Context) : Context :=
  mkContext (ssrc c) v (rolloverHasProcessed c) (lastSequenceNumber c)
    (masterKey c) (masterSalt c) (sessionKey c) (sessionSalt c) (block c).
Definition set_rolloverHasProcessed (v : bool) (c : Context) : Context :=
  mkContext (ssrc c) (rolloverCounter c) v (lastSequenceNumber c)
    (masterKey c) (masterSalt c) (sessionKey c) (sessionSalt c) (block c).
Definition set_lastSequenceNumber (v : Z) (c : Context) : Context :=
  mkContext (ssrc c) (rolloverCounter c) (rolloverHasProcessed c) v
    (masterKey c) (masterSalt c) (sessionKey c) (sessionSalt c) (block c).
Definition set_sessionKey (v : list Z) (c : Context) : Context :=
  mkContext (ssrc c) (rolloverCounter c) (rolloverHasProcessed c) (lastSequenceNumber c)
    (masterKey c) (masterSalt c) v (sessionSalt c) (block c).
Definition set_sessionSalt (v : list Z) (c : Context) : Context :=
  mkContext (ssrc c) (rolloverCounter c) (rolloverHasProcessed c) (lastSequenceNumber c)
    (masterKey c) (masterSalt c) (sessionKey c) v (block c).
Definition set_block (v : option aes.Block) (c : Context) : Context :=
  mkContext (ssrc c) (rolloverCounter c) (rolloverHasProcessed c) (lastSequenceNumber c)
    (masterKey c) (masterSalt c) (sessionKey c) (sessionSalt c) v.

(** ** Session key and session salt *)

(** The loop
    [for i, j := len(label)-1, len(buf)-1; i >= 0; i, j = i-1, j-1 { buf[j] ^= label[i] }]
    with [n = i + 1] iterations left. *)
Fixpoint label_loop (n : nat) (j : Z) (label buf : list Z) : outcome (list Z) :=
  match n with
  | O => Returns buf
  | S i =>
      if (0 <=? j) && (j <? Z.of_nat (length buf))
      then label_loop i (j - 1) label
             (<[Z.to_nat j := Z.lxor (nth (Z.to_nat j) buf 0) (nth i label 0)]> buf)
      else Panics (IndexOutOfRange j (length buf))
  end.

(** [block.Encrypt(buf, buf)]: the first block of [buf] is encrypted in
    place. *)
Definition encrypt_in_place (b : aes.Block) (buf : list Z) : outcome (list Z) :=
  enc ← aes.Encrypt b buf;
  Returns (enc ++ drop aes.BlockSize buf).

(** The result of the two derivations is Go's pair [([]byte, error)]; the
    nil slice is the empty list. *)
Definition generateSessionKey (c : Context) : outcome (list Z * option Error) :=
  let sessionKey := masterSalt c in                        (* make, copy *)
  let labelAndIndexOverKdr := [labelEncryption; 0; 0; 0; 0; 0; 0] in
  sessionKey ← label_loop (length labelAndIndexOverKdr)
                 (Z.of_nat (length sessionKey) - 1) labelAndIndexOverKdr sessionKey;
  let sessionKey := sessionKey ++ [0; 0] in                (* append *)
  match aes.NewCipher (masterKey c) with
  | inr e => Returns ([], Some (CipherError e))
  | inl blk =>
      sessionKey ← encrypt_in_place blk sessionKey;
      Returns (sessionKey, None)
  end.

(** [sessionSalt[0:saltLen]] is within the buffer: the encryption has
    succeeded on it, so it holds at least 16 bytes. *)
Definition generateSessionSalt (c : Context) : outcome (list Z * option Error) :=
  let sessionSalt := masterSalt c in                       (* make, copy *)
  let labelAndIndexOverKdr := [labelSalt; 0; 0; 0; 0; 0; 0] in
  sessionSalt ← label_loop (length labelAndIndexOverKdr)
                  (Z.of_nat (length sessionSalt) - 1) labelAndIndexOverKdr sessionSalt;
  let sessionSalt := sessionSalt ++ [0; 0] in              (* append *)
  match aes.NewCipher (masterKey c) with
  | inr e => Returns ([], Some (CipherError e))
  | inl blk =>
      sessionSalt ← encrypt_in_place blk sessionSalt;
      Returns (take saltLen sessionSalt, None)
  end.

(** ** CreateContext *)

(** The result is Go's pair [(c *Context, err error)]; [None] is nil. *)
Definition CreateContext (masterKey masterSalt : list Z) (profile : string)
  : outcome (option Context * option Error) :=
  if negb (length masterKey =? keyLen)%nat
  then Returns (None, Some (MasterKeyLenError (length masterKey)))
  else if negb (length masterSalt =? saltLen)%nat
  then Returns (None, Some (MasterSaltLenError (length masterSalt)))
  else
    let c := mkContext 0 0 false 0 masterKey masterSalt [] [] None in
    r ← generateSessionKey c;
    match r with
    | (_, Some err) => Returns (None, Some err)
    | (sk, None) =>
        let c := set_sessionKey sk c in
        r ← generateSessionSalt c;
        match r with
        | (_, Some err) => Returns (None, Some err)
        | (ss, None) =>
            let c := set_sessionSalt ss c in
            match aes.NewCipher (sessionKey c) with
            | inr e => Returns (None, Some (CipherError e))
            | inl blk => Returns (Some (set_block (Some blk) c), None)
            end
        end
    end.

(** ** The counter block *)

(** The loop [for i := range salt { counter[i] = counter[i] ^ salt[i] }],
    at index [i] with [salt] the bytes still to visit. *)
Fixpoint salt_loop (i : nat) (salt counter : list Z) : outcome (list Z) :=
  match salt with
  | [] => Returns counter
  | s :: rest =>
      if (i <? length counter)%nat
      then salt_loop (S i) rest (<[i := Z.lxor (nth i counter 0) s]> counter)
      else Panics (IndexOutOfRange (Z.of_nat i) (length counter))
  end.

Definition generateCounter (c : Context) (sequenceNumber : Z) : outcome (list Z) :=
  let counter := replicate 16 0 in
  counter ← binary.PutUint32 counter 4 (ssrc c);
  counter ← binary.PutUint32 counter 8 (rolloverCounter c);
  counter ← binary.PutUint32 counter 12 (uint32 (Z.shiftl sequenceNumber 16));
  salt_loop 0 (sessionSalt c) counter.

(** ** The rollover counter *)

Definition updateRolloverCount (c : Context) (sequenceNumber : Z) : Context :=
  let c :=
    if negb (rolloverHasProcessed c) then set_rolloverHasProcessed true c
    else if sequenceNumber =? 0 then
      if lastSequenceNumber c >? maxROCDisorder
      then set_rolloverCounter (uint32 (rolloverCounter c + 1)) c
      else c
    else if (lastSequenceNumber c <? maxROCDisorder)
              && (sequenceNumber >? maxSequenceNumber - maxROCDisorder)
    then set_rolloverCounter (uint32 (rolloverCounter c - 1)) c
    else if (sequenceNumber <? maxROCDisorder)
              && (lastSequenceNumber c >? maxSequenceNumber - maxROCDisorder)
    then set_rolloverCounter (uint32 (rolloverCounter c + 1)) c
    else c in
  set_lastSequenceNumber sequenceNumber c.

(** ** Slices over a store of backing arrays *)

(** A Go slice: a window of [len] elements, extensible up to [cap], that
    starts at index [off] of the backing array [arr].  The nil slice has
    [len = cap = 0]. *)
Record slice : Type := mkSlice { arr : nat; off : nat; len : nat; cap : nat }.

(** The store: the backing arrays, by number. *)
Abbreviation Heap := (list (list Z)).

Definition array (h : Heap) (a : nat) : list Z := default [] (h !! a).

Definition slice_ok (h : Heap) (s : slice) : Prop :=
  (len s <= cap s)%nat /\ (off s + cap s <= length (array h (arr s)))%nat.

(** The elements of a slice. *)
Definition read (h : Heap) (s : slice) : list Z :=
  take (len s) (drop (off s) (array h (arr s))).

(** [v] written over the elements of [l] from index [o] on. *)
Definition splice (o : nat) (v l : list Z) : list Z :=
  take o l ++ v ++ drop (o + length v) l.

Definition write_at (h : Heap) (a o : nat) (v : list Z) : Heap :=
  <[a := splice o v (array h a)]> h.

(** [s[:hi]] or [s[0:hi]]. *)
Definition reslice (s : slice) (hi : Z) : outcome slice :=
  if (0 <=? hi) && (hi <=? Z.of_nat (cap s))
  then Returns (mkSlice (arr s) (off s) (Z.to_nat hi) (cap s))
  else Panics (SliceBoundsOutOfRange hi (cap s)).

(** What the language leaves to the run time: the capacity of the array that
    [append] allocates when the slice is full. *)
Class Runtime : Type := {
  growslice : nat -> nat -> nat;       (* old capacity, needed length *)
  growslice_fits : forall old need, (need <= growslice old need)%nat
}.

(** [append(s, v...)]: in place when the capacity suffices, else into a new
    array that holds the elements of [s] followed by [v]. *)
Definition append `{Runtime} (s : slice) (v : list Z) (h : Heap) : slice * Heap :=
  let need := (len s + length v)%nat in
  if (need <=? cap s)%nat
  then (mkSlice (arr s) (off s) need (cap s),
        write_at h (arr s) (off s + len s) v)
  else
    let newcap := growslice (cap s) need in
    (mkSlice (length h) 0 need newcap,
     h ++ [read h s ++ v ++ replicate (newcap - need) 0]).

(** ** DecryptPacket *)

(** The fields of [rtp.Packet] that [DecryptPacket] uses. *)
Record Packet : Type := mkPacket {
  Raw : slice;
  PayloadOffset : Z;
  SequenceNumber : Z;
  SSRC : Z;
  Payload : slice
}.

Definition set_Raw (v : slice) (p : Packet) : Packet :=
  mkPacket v (PayloadOffset p) (SequenceNumber p) (SSRC p) (Payload p).
Definition set_Payload (v : slice) (p : Packet) : Packet :=
  mkPacket (Raw p) (PayloadOffset p) (SequenceNumber p) (SSRC p) v.

(** What a call leaves behind, also when it panics: the context, the packet
    and the store. *)
Record State : Type := mkState { ctx : Context; pkt : Packet; heap : Heap }.

Definition tagLen : Z := 10.

Definition DecryptPacket `{Runtime} (c : Context) (packet : Packet) (h : Heap)
  : outcome bool * State :=
  if negb (ssrc c =? 0) && negb (ssrc c =? SSRC packet)
  then (Returns false, mkState c packet h)
  else
    let c := set_ssrc (SSRC packet) c in
    let c := updateRolloverCount c (SequenceNumber packet) in
    match counter ← generateCounter c (SequenceNumber packet);
          cipher.NewCTR (block c) counter with
    | Panics p => (Panics p, mkState c packet h)
    | Returns stream =>
        (* stream.XORKeyStream(packet.Payload, packet.Payload) *)
        let h := write_at h (arr (Payload packet)) (off (Payload packet))
                   (cipher.XORKeyStream stream (read h (Payload packet))) in
        match reslice (Payload packet) (Z.of_nat (len (Payload packet)) - tagLen) with
        | Panics p => (Panics p, mkState c packet h)
        | Returns payload =>
            let packet := set_Payload payload packet in
            match reslice (Raw packet) (PayloadOffset packet) with
            | Panics p => (Panics p, mkState c packet h)
            | Returns raw =>
                let '(raw, h) := append raw (read h (Payload packet)) h in
                (Returns true, mkState c (set_Raw raw packet) h)
            end
        end
    end.

(** ** The test vectors of RFC 3711, appendix B.3 *)

Definition rfc_key : list Z :=
  [225; 249; 122; 13; 62; 1; 139; 224; 214; 79; 163; 44; 6; 222; 65; 57].
Definition rfc_salt : list Z :=
  [14; 198; 117; 173; 73; 138; 254; 235; 182; 150; 11; 58; 171; 230].

(** A run time whose [append] allocates exactly the length it needs. *)
Definition exact_runtime : Runtime :=
  {| growslice := fun _ need => need;
     growslice_fits := fun _ need => le_n need |}.

(** ** Contexts in use *)

(** What [CreateContext] establishes and [DecryptPacket] keeps: a session
    salt of [saltLen] bytes and a block cipher keyed with the session key. *)
Definition wf_context (c : Context) : Prop :=
  length (sessionSalt c) = saltLen /\
  match block c with
  | Some blk => aes.NewCipher (sessionKey c) = inl blk
  | None => False
  end.

(** A packet passes the stream check of [DecryptPacket]. *)
Definition accepted (c : Context) (packet : Packet) : Prop :=
  ssrc c = 0 \/ ssrc c = SSRC packet.

(** The calls of [DecryptPacket] on one context, one after the other.  Each
    call comes with its packet and the store at the time of the call; the
    context is the one the call before has left, also when that call has
    panicked and the caller has recovered. *)
Fixpoint run `{Runtime} (c : Context) (calls : list (Packet * Heap))
  : list (outcome bool * State) :=
  match calls with
  | [] => []
  | (packet, h) :: rest =>
      let r := DecryptPacket c packet h in
      r :: run (ctx (snd r)) rest
  end.

(** [updateRolloverCount] on the sequence numbers [seqs], in order. *)
Definition feed (c : Context) (seqs : list Z) : Context :=
  fold_left updateRolloverCount seqs c.

(** ** The statements of the specification *)

(** The decision table of the rollover tracker, as the specification words
    it: from the counter, the initialized flag, the last sequence number and
    the incoming one to the new counter, flag and last sequence number.
    Increment and decrement are those of a 32-bit unsigned counter. *)
Definition incr32 (roc : Z) : Z := (roc + 1) mod 2 ^ 32.
Definition decr32 (roc : Z) : Z := (roc - 1) mod 2 ^ 32.

Definition rollover_table (roc : Z) (initialized : bool) (last seq : Z)
  : Z * bool * Z :=
  if negb initialized then (roc, true, seq)
  else if (seq =? 0) && (last >? 100) then (incr32 roc, true, seq)
  else if (last <? 100) && (seq >? 65435) then (decr32 roc, true, seq)
  else if (seq <? 100) && (last >? 65435) then (incr32 roc, true, seq)
  else (roc, true, seq).

(** The layout of the counter block before the salt is mixed in. *)
Definition be32 (v : Z) : list Z :=
  [byte_of (Z.shiftr v 24); byte_of (Z.shiftr v 16); byte_of (Z.shiftr v 8); byte_of v].
Definition be16 (v : Z) : list Z :=
  [byte_of (Z.shiftr v 8); byte_of v].
Definition counter_layout (ssrc roc seq : Z) : list Z :=
  [0; 0; 0; 0] ++ be32 ssrc ++ be32 roc ++ be16 seq ++ [0; 0].

(** The input block of the key derivation as the code builds it: the master
    salt in bytes 0 to 13, two zero bytes after it, and the label mixed into
    byte 7. *)
Definition derivation_block (label : Z) (salt : list Z) : list Z :=
  xor_bytes (salt ++ [0; 0])
    ([0; 0; 0; 0; 0; 0; 0] ++ [label; 0; 0; 0; 0; 0; 0] ++ [0; 0]).

(** The input block as the specification words it: the master salt
    right-aligned in the block (bytes 2 to 15) and the label sequence mixed
    into the final 7 bytes of the block. *)
Definition right_aligned_block (label : Z) (salt : list Z) : list Z :=
  xor_bytes ([0; 0] ++ salt)
    ([0; 0; 0; 0; 0; 0; 0; 0; 0] ++ [label; 0; 0; 0; 0; 0; 0]).

(** The sender's side of the round trip: the payload under the key stream of
    the context's session key from the counter block of
    [(ssrc, roc, seq)]. *)
Definition encryptPayload (c : Context) (ssrc roc seq : Z) (plain : list Z)
  : outcome (list Z) :=
  counter ← generateCounter (set_rolloverCounter roc (set_ssrc ssrc c)) seq;
  match aes.NewCipher (sessionKey c) with
  | inr _ => Panics NilDereference
  | inl blk =>
      stream ← cipher.NewCTR (Some blk) counter;
      Returns (cipher.XORKeyStream stream plain)
  end.

(** ** Test data *)

(** The context of the RFC 3711 keys, as [CreateContext] builds it. *)
Definition rfc_context : Context :=
  match CreateContext rfc_key rfc_salt "" with
  | Returns (Some c, _) => c
  | _ => mkContext 0 0 false 0 [] [] [] [] None
  end.

(** The context that holds the master key and salt of RFC 3711 and nothing
    else yet, as [CreateContext] passes it to the derivations. *)
Definition rfc_master : Context :=
  mkContext 0 0 false 0 rfc_key rfc_salt [] [] None.

(** A parsed packet of 12 header bytes and 26 payload bytes in one array:
    [Payload] is [Raw[12:]]. *)
Definition sample_heap : Heap := [seqZ 0 12 ++ seqZ 100 26].
Definition sample_packet (id seq : Z) : Packet :=
  mkPacket (mkSlice 0 0 38 38) 12 seq id (mkSlice 0 12 26 26).

(** The same packet cut short: 5 bytes of payload. *)
Definition short_packet : Packet :=
  mkPacket (mkSlice 0 0 17 38) 12 5 1000 (mkSlice 0 12 5 26).

(** A round trip: 16 bytes of plaintext and a 10-byte tag placeholder,
    encrypted for stream 1000, rollover counter 0 and sequence number 5, as
    the payload of a packet in a store. *)
Definition sample_plain : list Z := seqZ 65 16.
Definition sample_tag : list Z := replicate 10 0.
Definition sample_cipher : list Z :=
  Eval vm_compute in
    match encryptPayload rfc_context 1000 0 5 (sample_plain ++ sample_tag) with
    | Returns ct => ct
    | Panics _ => []
    end.
Definition roundtrip_heap : Heap := [seqZ 0 12 ++ sample_cipher].

(** [n] times the sequence numbers 0, 1, ..., 65535 in order. *)
Definition cycles (n : nat) : list Z := concat (replicate n (seqZ 0 65536)).

(** Go's zero value of [Context], which a caller can make without
    [CreateContext]. *)
Definition zero_context : Context := mkContext 0 0 false 0 [] [] [] [] None.

(** A packet whose payload holds the 10 bytes of the tag and whose payload
    offset is within the raw buffer. *)
Definition packet_ok (packet : Packet) : Prop :=
  (10 <= len (Payload packet) <= cap (Payload packet))%nat /\
  0 <= PayloadOffset packet <= Z.of_nat (cap (Raw packet)).

(** The store of the round trip with the last 10 bytes of the payload
    overwritten. *)
Definition tampered_heap : Heap :=
  [seqZ 0 12 ++ take 16 sample_cipher ++ replicate 10 255].

(** * Properties *)

(** ** The rollover counter *)

Ltac split_cmp :=
  repeat match goal with
  | |- context [Z.eqb ?a ?b] => destruct (Z.eqb_spec a b)
  | |- context [Z.ltb ?a ?b] => destruct (Z.ltb_spec a b)
  | |- context [Z.gtb ?a ?b] => rewrite (Z.gtb_ltb a b)
  | |- context [Z.leb ?a ?b] => destruct (Z.leb_spec a b)
  end.

Lemma incr32_exact roc : 0 <= roc < 2 ^ 32 - 1 -> incr32 roc = roc + 1.
Proof. intros Hr. unfold incr32. apply Z.mod_small. lia. Qed.

Lemma decr32_exact roc : 0 < roc < 2 ^ 32 -> decr32 roc = roc - 1.
Proof. intros Hr. unfold decr32. apply Z.mod_small. lia. Qed.

Lemma updateRolloverCount_last c seq :
  lastSequenceNumber (updateRolloverCount c seq) = seq.
Proof. reflexivity. Qed.

Lemma updateRolloverCount_ssrc c seq :
  ssrc (updateRolloverCount c seq) = ssrc c.
Proof.
  unfold updateRolloverCount.
  repeat match goal with |- context [if ?b then _ else _] => destruct b end;
    reflexivity.
Qed.

Lemma updateRolloverCount_keys c seq :
  sessionSalt (updateRolloverCount c seq) = sessionSalt c /\
  sessionKey (updateRolloverCount c seq) = sessionKey c /\
  block (updateRolloverCount c seq) = block c.
Proof.
  unfold updateRolloverCount.
  repeat match goal with |- context [if ?b then _ else _] => destruct b end;
    repeat split.
Qed.

Lemma updateRolloverCount_processed c seq :
  rolloverHasProcessed (updateRolloverCount c seq) = true.
Proof.
  unfold updateRolloverCount.
  destruct (rolloverHasProcessed c) eqn:E; simpl;
    repeat match goal with |- context [if ?b then _ else _] => destruct b end;
    simpl; auto.
Qed.

(** C2: [updateRolloverCount] is the four-branch decision table with
    tolerance 100 and wrap boundary 65535: the first call only marks the
    tracker initialized; after it, a 0 after a last sequence number above 100
    increments the counter, a sequence number above 65435 after a last one
    below 100 decrements it, a sequence number below 100 after a last one
    above 65435 increments it, and anything else leaves it; the last
    sequence number becomes the incoming one in every case. *)
Theorem updateRolloverCount_is_table (c : Context) (seq : Z) :
  updateRolloverCount c seq =
    let '(roc, initialized, last) :=
      rollover_table (rolloverCounter c) (rolloverHasProcessed c)
        (lastSequenceNumber c) seq in
    set_lastSequenceNumber last
      (set_rolloverHasProcessed initialized (set_rolloverCounter roc c)).
Proof.
  destruct c as [id roc init last mk ms sk ss blk].
  unfold updateRolloverCount, rollover_table, incr32, decr32, uint32,
    maxROCDisorder, maxSequenceNumber; simpl.
  destruct init; simpl; [| reflexivity].
  split_cmp; simpl; try reflexivity; lia.
Qed.

(** A step to the next sequence number, away from the wrap, leaves the
    counter. *)
Lemma updateRolloverCount_succ c :
  rolloverHasProcessed c = true ->
  0 <= lastSequenceNumber c ->
  rolloverCounter (updateRolloverCount c (lastSequenceNumber c + 1)) = rolloverCounter c.
Proof.
  intros Hp Hl. rewrite updateRolloverCount_is_table, Hp.
  unfold rollover_table; simpl.
  split_cmp; simpl; try reflexivity; lia.
Qed.

Lemma feed_app c l1 l2 : feed c (l1 ++ l2) = feed (feed c l1) l2.
Proof. apply fold_left_app. Qed.

(** An ascending run [a + 1, ..., a + n] after [a]. *)
Lemma feed_ascending (n : nat) : forall c a,
  rolloverHasProcessed c = true ->
  lastSequenceNumber c = a ->
  0 <= a ->
  rolloverCounter (feed c (seqZ (a + 1) (Z.of_nat n))) = rolloverCounter c /\
  rolloverHasProcessed (feed c (seqZ (a + 1) (Z.of_nat n))) = true /\
  lastSequenceNumber (feed c (seqZ (a + 1) (Z.of_nat n))) = a + Z.of_nat n.
Proof.
  induction n as [| n IH]; intros c a Hp Ha Hl.
  - simpl. repeat split; auto. lia.
  - rewrite Nat2Z.inj_succ, seqZ_cons by lia.
    replace (Z.pred (Z.succ (Z.of_nat n))) with (Z.of_nat n) by lia.
    replace (Z.succ (a + 1)) with (a + 1 + 1) by lia.
    cbn [feed fold_left].
    destruct (IH (updateRolloverCount c (a + 1)) (a + 1)) as (Hr & Hp' & Hl').
    + apply updateRolloverCount_processed.
    + apply updateRolloverCount_last.
    + lia.
    + unfold feed in *. rewrite Hr, Hp', Hl'. repeat split; [| lia].
      subst a. apply updateRolloverCount_succ; auto.
Qed.

Lemma take_seqZ (a : Z) (k : nat) (n : Z) :
  Z.of_nat k <= n -> take k (seqZ a n) = seqZ a (Z.of_nat k).
Proof.
  intros Hk. replace n with (Z.of_nat k + (n - Z.of_nat k)) by lia.
  rewrite seqZ_app by lia. apply take_app_length'.
  rewrite length_seqZ. lia.
Qed.

(** The first call on a fresh tracker, then an ascending run from 0. *)
Lemma feed_from_zero c (k : nat) :
  rolloverHasProcessed c = false ->
  rolloverCounter (feed c (seqZ 0 (Z.of_nat (S k)))) = rolloverCounter c /\
  rolloverHasProcessed (feed c (seqZ 0 (Z.of_nat (S k)))) = true /\
  lastSequenceNumber (feed c (seqZ 0 (Z.of_nat (S k)))) = Z.of_nat k.
Proof.
  intros Hp. rewrite Nat2Z.inj_succ, seqZ_cons by lia.
  replace (Z.pred (Z.succ (Z.of_nat k))) with (Z.of_nat k) by lia.
  cbn [feed fold_left].
  destruct (feed_ascending k (updateRolloverCount c 0) 0) as (Hr & Hp' & Hl').
  - apply updateRolloverCount_processed.
  - apply updateRolloverCount_last.
  - lia.
  - change (Z.succ 0) with (0 + 1). unfold feed in *.
    rewrite Hr, Hp', Hl'. repeat split; try lia.
    rewrite updateRolloverCount_is_table, Hp. reflexivity.
Qed.

(** C6: from a fresh context (counter 0, tracker not initialized), feeding
    0, 1, ..., 65535, 0, 1 leaves the counter at 0 after each of the first
    65536 calls, sets it to 1 in the call of the second 0, and leaves it at 1
    in the last call: one increment, at the second 0. *)
Theorem rollover_once_at_second_zero (c : Context) :
  rolloverCounter c = 0 ->
  rolloverHasProcessed c = false ->
  let seqs := seqZ 0 65536 ++ [0; 1] in
  (forall k : nat, Z.of_nat k <= 65536 ->
     rolloverCounter (feed c (take k seqs)) = 0) /\
  rolloverCounter (feed c (take (Z.to_nat 65537) seqs)) = 1 /\
  rolloverCounter (feed c seqs) = 1.
Proof.
  intros Hr Hp seqs.
  assert (Hlen : length (seqZ 0 65536) = Z.to_nat 65536) by apply length_seqZ.
  destruct (feed_from_zero c (Z.to_nat 65535) Hp) as (Hr2 & Hp2 & Hl2).
  replace (Z.of_nat (S (Z.to_nat 65535))) with 65536 in * by lia.
  replace (Z.of_nat (Z.to_nat 65535)) with 65535 in * by lia.
  set (c2 := feed c (seqZ 0 65536)) in *.
  assert (H0 : rolloverCounter (updateRolloverCount c2 0) = 1).
  { rewrite updateRolloverCount_is_table, Hp2, Hl2, Hr2, Hr. reflexivity. }
  split; [| split].
  - intros k Hk. unfold seqs. rewrite take_app_le by (rewrite Hlen; lia).
    rewrite take_seqZ by lia. destruct k as [| k]; [exact Hr |].
    destruct (feed_from_zero c k Hp) as (Hrk & _). congruence.
  - unfold seqs. rewrite take_app_ge by (rewrite Hlen; lia).
    rewrite Hlen. replace (Z.to_nat 65537 - Z.to_nat 65536)%nat with 1%nat by lia.
    rewrite feed_app. exact H0.
  - unfold seqs. rewrite feed_app. fold c2. cbn [feed fold_left].
    rewrite updateRolloverCount_is_table, updateRolloverCount_processed,
      updateRolloverCount_last, H0.
    reflexivity.
Qed.

Lemma rollover_once_at_second_zero_witness :
  rolloverCounter rfc_context = 0 /\
  rolloverHasProcessed rfc_context = false /\
  rolloverCounter (feed rfc_context (seqZ 0 65536 ++ [0; 1])) = 1.
Proof.
  split; [| split].
  - vm_compute; reflexivity.
  - vm_compute; reflexivity.
  - apply (rollover_once_at_second_zero rfc_context); vm_compute; reflexivity.
Defined.

(** ** The block cipher *)

Ltac list_of_length l H :=
  repeat (destruct l as [| ? l]; [discriminate H |]);
  destruct l; [| discriminate H].

(** The model of [crypto/aes] on the example vectors of FIPS-197,
    appendix C, for the three key sizes. *)
Example aes128_fips197 :
  aes.encryptBlock (aes.expandKey (seqZ 0 16)) (map (Z.mul 17) (seqZ 0 16)) =
  [105; 196; 224; 216; 106; 123; 4; 48; 216; 205; 183; 128; 112; 180; 197; 90].
Proof. vm_compute. reflexivity. Qed.

Example aes192_fips197 :
  aes.encryptBlock (aes.expandKey (seqZ 0 24)) (map (Z.mul 17) (seqZ 0 16)) =
  [221; 169; 124; 164; 134; 76; 223; 224; 110; 175; 112; 160; 236; 13; 113; 145].
Proof. vm_compute. reflexivity. Qed.

Example aes256_fips197 :
  aes.encryptBlock (aes.expandKey (seqZ 0 32)) (map (Z.mul 17) (seqZ 0 16)) =
  [142; 162; 183; 202; 81; 103; 69; 191; 234; 252; 73; 144; 75; 73; 96; 137].
Proof. vm_compute. reflexivity. Qed.

Lemma encryptBlock_length enc src :
  length (aes.encryptBlock enc src) = aes.BlockSize.
Proof.
  unfold aes.encryptBlock, aes.add_round_key.
  rewrite length_imap. reflexivity.
Qed.

Lemma expand_loop_length n : forall nk enc,
  length (aes.expand_loop n nk enc) = (length enc + n)%nat.
Proof.
  induction n as [| n IH]; intros nk enc; simpl.
  - lia.
  - rewrite IH, length_app. simpl. lia.
Qed.

(** A 16-byte key gives the schedule of AES-128: 44 words, 10 rounds. *)
Lemma expandKey_16_length key :
  length key = 16%nat -> length (aes.expandKey key) = 44%nat.
Proof.
  intros Hk. unfold aes.expandKey. rewrite expand_loop_length, Hk.
  list_of_length key Hk. reflexivity.
Qed.

Lemma NewCipher_16 key :
  length key = 16%nat -> aes.NewCipher key = inl (aes.mkBlock (aes.expandKey key)).
Proof. intros Hk. unfold aes.NewCipher. rewrite Hk. reflexivity. Qed.

Lemma NewCipher_bad key :
  length key <> 16%nat -> length key <> 24%nat -> length key <> 32%nat ->
  aes.NewCipher key = inr (length key).
Proof.
  intros H1 H2 H3. unfold aes.NewCipher.
  destruct (Nat.eqb_spec (length key) 16); [lia |].
  destruct (Nat.eqb_spec (length key) 24); [lia |].
  destruct (Nat.eqb_spec (length key) 32); [lia |].
  reflexivity.
Qed.

Lemma Encrypt_16 blk src :
  (16 <= length src)%nat ->
  aes.Encrypt blk src = Returns (aes.encryptBlock (aes.enc blk) src).
Proof.
  intros Hs. unfold aes.Encrypt, aes.BlockSize.
  destruct (Nat.ltb_spec (length src) 16); [lia | reflexivity].
Qed.

(** ** Session key and session salt *)

Lemma label_loop_14 label buf :
  length buf = 14%nat ->
  label_loop 7 (Z.of_nat (length buf) - 1) [label; 0; 0; 0; 0; 0; 0] buf =
  Returns (xor_bytes buf ([0; 0; 0; 0; 0; 0; 0] ++ [label; 0; 0; 0; 0; 0; 0])).
Proof.
  intros Hb. list_of_length buf Hb. cbn.
  rewrite !Z.lxor_0_r. reflexivity.
Qed.

Lemma derivation_block_length label salt :
  length salt = 14%nat -> length (derivation_block label salt) = 16%nat.
Proof. intros Hs. list_of_length salt Hs. reflexivity. Qed.

(** The buffer of a derivation when it reaches the block cipher. *)
Lemma derivation_buffer label salt :
  length salt = 14%nat ->
  xor_bytes salt ([0; 0; 0; 0; 0; 0; 0] ++ [label; 0; 0; 0; 0; 0; 0]) ++ [0; 0]
  = derivation_block label salt.
Proof. intros Hs. list_of_length salt Hs. reflexivity. Qed.

Lemma encrypt_in_place_block blk label salt :
  length salt = 14%nat ->
  encrypt_in_place blk (derivation_block label salt) =
  Returns (aes.encryptBlock (aes.enc blk) (derivation_block label salt)).
Proof.
  intros Hs. unfold encrypt_in_place.
  rewrite Encrypt_16 by (rewrite derivation_block_length; [lia | exact Hs]).
  cbn [mbind outcome_bind].
  rewrite drop_ge
    by (rewrite derivation_block_length; [unfold aes.BlockSize; lia | exact Hs]).
  rewrite app_nil_r. reflexivity.
Qed.

Lemma generateSessionKey_spec c :
  length (masterKey c) = keyLen ->
  length (masterSalt c) = saltLen ->
  generateSessionKey c =
  Returns (aes.encryptBlock (aes.expandKey (masterKey c))
             (derivation_block labelEncryption (masterSalt c)), None).
Proof.
  intros Hk Hs. unfold generateSessionKey.
  change (length [labelEncryption; 0; 0; 0; 0; 0; 0]) with 7%nat.
  rewrite (label_loop_14 labelEncryption _ Hs). cbn [mbind outcome_bind].
  rewrite (NewCipher_16 _ Hk), (derivation_buffer _ _ Hs).
  rewrite (encrypt_in_place_block _ _ _ Hs). reflexivity.
Qed.

Lemma generateSessionSalt_spec c :
  length (masterKey c) = keyLen ->
  length (masterSalt c) = saltLen ->
  generateSessionSalt c =
  Returns (take saltLen
             (aes.encryptBlock (aes.expandKey (masterKey c))
                (derivation_block labelSalt (masterSalt c))), None).
Proof.
  intros Hk Hs. unfold generateSessionSalt.
  change (length [labelSalt; 0; 0; 0; 0; 0; 0]) with 7%nat.
  rewrite (label_loop_14 labelSalt _ Hs). cbn [mbind outcome_bind].
  rewrite (NewCipher_16 _ Hk), (derivation_buffer _ _ Hs).
  rewrite (encrypt_in_place_block _ _ _ Hs). reflexivity.
Qed.

(** C5, as amended: for a 16-byte master key and a 14-byte master salt, the
    derivation block holds the master salt in bytes 0 to 13 followed by two
    zero bytes, with the label (0x00 for the key, 0x02 for the salt) mixed
    into byte 7, the first of the final 7 bytes of the salt; the session key
    is the whole encryption of that block under the master key, with the
    44-word key schedule of AES-128, and the session salt the first 14 bytes
    of the same computation under label 0x02. *)
Theorem session_key_and_salt_derivation (c : Context) :
  length (masterKey c) = keyLen ->
  length (masterSalt c) = saltLen ->
  generateSessionKey c =
    Returns (aes.encryptBlock (aes.expandKey (masterKey c))
               (derivation_block labelEncryption (masterSalt c)), None) /\
  generateSessionSalt c =
    Returns (take saltLen
               (aes.encryptBlock (aes.expandKey (masterKey c))
                  (derivation_block labelSalt (masterSalt c))), None) /\
  length (aes.expandKey (masterKey c)) = 44%nat /\
  (forall label s0 s1 s2 s3 s4 s5 s6 s7 s8 s9 s10 s11 s12 s13,
     masterSalt c = [s0; s1; s2; s3; s4; s5; s6; s7; s8; s9; s10; s11; s12; s13] ->
     derivation_block label (masterSalt c) =
       [s0; s1; s2; s3; s4; s5; s6; Z.lxor s7 label; s8; s9; s10; s11; s12; s13; 0; 0]).
Proof.
  intros Hk Hs. split; [| split; [| split]].
  - apply generateSessionKey_spec; assumption.
  - apply generateSessionSalt_spec; assumption.
  - apply expandKey_16_length, Hk.
  - intros label s0 s1 s2 s3 s4 s5 s6 s7 s8 s9 s10 s11 s12 s13 ->.
    cbn. rewrite !Z.lxor_0_r. reflexivity.
Qed.

Lemma session_key_and_salt_derivation_witness :
  generateSessionKey rfc_master =
    Returns ([198; 30; 122; 147; 116; 79; 57; 238; 16; 115; 74; 254; 63; 247; 160; 135],
             None) /\
  generateSessionSalt rfc_master =
    Returns ([48; 203; 188; 8; 134; 61; 140; 133; 212; 157; 179; 74; 154; 225], None).
Proof.
  destruct (session_key_and_salt_derivation rfc_master) as (Hk & Hs & _);
    [reflexivity | reflexivity |].
  rewrite Hk, Hs. vm_compute. split; reflexivity.
Defined.

(** C5 as stated fails: on the keys of RFC 3711 the session key is not the
    encryption of the block that holds the master salt right-aligned. *)
Lemma session_key_not_right_aligned :
  generateSessionKey rfc_master <>
  Returns (aes.encryptBlock (aes.expandKey rfc_key)
             (right_aligned_block labelEncryption rfc_salt), None).
Proof. vm_compute. intros H. discriminate H. Qed.

(** ** CreateContext *)

Lemma CreateContext_ok mk ms profile :
  length mk = keyLen ->
  length ms = saltLen ->
  exists c,
    CreateContext mk ms profile = Returns (Some c, None) /\
    wf_context c /\
    ssrc c = 0 /\ rolloverCounter c = 0 /\ rolloverHasProcessed c = false.
Proof.
  intros Hk Hs. unfold CreateContext.
  rewrite Hk, Hs. cbn [Nat.eqb keyLen saltLen negb].
  rewrite generateSessionKey_spec by assumption. cbn [mbind outcome_bind].
  rewrite generateSessionSalt_spec by assumption. cbn [mbind outcome_bind].
  cbn [sessionKey set_sessionSalt set_sessionKey masterKey masterSalt
       ssrc rolloverCounter rolloverHasProcessed lastSequenceNumber sessionSalt block].
  rewrite NewCipher_16 by apply encryptBlock_length.
  eexists. split; [reflexivity |].
  split; [| repeat split].
  split.
  - cbn [sessionSalt set_block set_sessionSalt].
    rewrite length_take, encryptBlock_length. reflexivity.
  - cbn [block set_block sessionKey set_sessionSalt set_sessionKey].
    apply NewCipher_16, encryptBlock_length.
Qed.

(** C9: [CreateContext] returns a context and no error when the master key
    has 16 bytes and the master salt 14, and an error and no context in
    every other case. *)
Theorem CreateContext_lengths (masterKey masterSalt : list Z) (profile : string) :
  if ((length masterKey =? 16) && (length masterSalt =? 14))%nat
  then exists c, CreateContext masterKey masterSalt profile = Returns (Some c, None)
  else exists e, CreateContext masterKey masterSalt profile = Returns (None, Some e).
Proof.
  destruct (Nat.eqb_spec (length masterKey) 16) as [Hk | Hk]; cbn [andb].
  - destruct (Nat.eqb_spec (length masterSalt) 14) as [Hs | Hs].
    + destruct (CreateContext_ok masterKey masterSalt profile Hk Hs) as (c & Hc & _).
      exists c. exact Hc.
    + unfold CreateContext, keyLen, saltLen. rewrite Hk. cbn [Nat.eqb negb].
      destruct (Nat.eqb_spec (length masterSalt) 14); [contradiction |].
      eexists. reflexivity.
  - unfold CreateContext, keyLen.
    destruct (Nat.eqb_spec (length masterKey) 16); [contradiction |].
    eexists. reflexivity.
Qed.

(** ** The counter block *)

Lemma byte_of_shiftr v k :
  0 <= k -> byte_of (Z.shiftr v k) = (v / 2 ^ k) mod 256.
Proof.
  intros Hk. unfold byte_of. change 255 with (Z.ones 8).
  rewrite Z.land_ones by lia. rewrite Z.shiftr_div_pow2 by lia. reflexivity.
Qed.

Lemma byte_of_mod v : byte_of v = v mod 256.
Proof.
  unfold byte_of. change 255 with (Z.ones 8).
  rewrite Z.land_ones by lia. reflexivity.
Qed.

Lemma be32_inj v w :
  0 <= v < 2 ^ 32 -> 0 <= w < 2 ^ 32 -> be32 v = be32 w -> v = w.
Proof.
  intros Hv Hw H. unfold be32 in H.
  rewrite !byte_of_shiftr, !byte_of_mod in H by lia.
  injection H as H24 H16 H8 H0.
  change (2 ^ 24) with 16777216 in *. change (2 ^ 16) with 65536 in *.
  change (2 ^ 8) with 256 in *. change (2 ^ 32) with 4294967296 in *.
  Z.div_mod_to_equations. lia.
Qed.

Lemma be16_inj v w :
  0 <= v < 2 ^ 16 -> 0 <= w < 2 ^ 16 -> be16 v = be16 w -> v = w.
Proof.
  intros Hv Hw H. unfold be16 in H.
  rewrite !byte_of_shiftr, !byte_of_mod in H by lia.
  injection H as H8 H0.
  change (2 ^ 8) with 256 in *. change (2 ^ 16) with 65536 in *.
  Z.div_mod_to_equations. lia.
Qed.

(** [uint32(sequenceNumber) << 16] puts the sequence number in the two high
    bytes of the field. *)
Lemma be32_shifted_seq seq :
  0 <= seq < 2 ^ 16 -> be32 (uint32 (Z.shiftl seq 16)) = be16 seq ++ [0; 0].
Proof.
  intros Hs. unfold be32, be16, uint32.
  rewrite Z.shiftl_mul_pow2 by lia.
  rewrite !byte_of_shiftr, !byte_of_mod by lia.
  change (2 ^ 24) with 16777216 in *. change (2 ^ 16) with 65536 in *.
  change (2 ^ 8) with 256 in *. change (2 ^ 32) with 4294967296 in *.
  rewrite (Z.mod_small (seq * 65536)) by lia.
  cbn [app].
  f_equal; [| f_equal; [| f_equal; [| f_equal]]];
    Z.div_mod_to_equations; lia.
Qed.

(** The three [PutUint32] never panic on the 16 bytes of [make]: what is
    left of [generateCounter] is the loop over the salt. *)
Lemma generateCounter_fields c seq :
  generateCounter c seq =
  salt_loop 0 (sessionSalt c)
    ([0; 0; 0; 0] ++ be32 (ssrc c) ++ be32 (rolloverCounter c)
       ++ be32 (uint32 (Z.shiftl seq 16))).
Proof. reflexivity. Qed.

Lemma generateCounter_ext c c' seq :
  ssrc c = ssrc c' -> rolloverCounter c = rolloverCounter c' ->
  sessionSalt c = sessionSalt c' ->
  generateCounter c seq = generateCounter c' seq.
Proof. intros H1 H2 H3. rewrite !generateCounter_fields, H1, H2, H3. reflexivity. Qed.

(** The loop over the salt returns when the salt fits in the counter, and
    keeps the length of the counter. *)
Lemma salt_loop_total salt : forall i counter,
  (i + length salt <= length counter)%nat ->
  exists r, salt_loop i salt counter = Returns r /\ length r = length counter.
Proof.
  induction salt as [| s rest IH]; intros i counter Hlen; simpl in *.
  - exists counter. split; reflexivity.
  - destruct (Nat.ltb_spec i (length counter)); [| lia].
    destruct (IH (S i) (<[i := Z.lxor (nth i counter 0) s]> counter))
      as (r & Hr & Hl).
    + rewrite length_insert. lia.
    + exists r. rewrite length_insert in Hl. split; assumption.
Qed.

Lemma nth_lookup_Z (l : list Z) i x : l !! i = Some x -> nth i l 0 = x.
Proof.
  revert i. induction l as [| y l IH]; intros [| i] H; simpl in *;
    try discriminate; [congruence | auto].
Qed.

Lemma lxor_cancel_r a b s : Z.lxor a s = Z.lxor b s -> a = b.
Proof.
  intros H.
  rewrite <- (Z.lxor_0_r a), <- (Z.lxor_0_r b), <- (Z.lxor_nilpotent s).
  rewrite <- !Z.lxor_assoc, H. reflexivity.
Qed.

Lemma lxor_involutive a s : Z.lxor (Z.lxor a s) s = a.
Proof. rewrite Z.lxor_assoc, Z.lxor_nilpotent. apply Z.lxor_0_r. Qed.

(** Mixing one salt byte into byte [i] loses nothing. *)
Lemma insert_xor_inj (c1 c2 : list Z) i s :
  length c1 = length c2 ->
  <[i := Z.lxor (nth i c1 0) s]> c1 = <[i := Z.lxor (nth i c2 0) s]> c2 ->
  c1 = c2.
Proof.
  intros Hlen H. apply list_eq. intros j.
  destruct (decide (i = j)) as [<- | Hne].
  - destruct (c1 !! i) as [x |] eqn:E1.
    + assert (Hi : (i < length c1)%nat) by (eapply lookup_lt_Some; eauto).
      destruct (lookup_lt_is_Some_2 c2 i) as [y E2]; [lia |].
      rewrite E2. f_equal.
      apply (f_equal (fun l => l !! i)) in H.
      rewrite !list_lookup_insert_eq in H by lia.
      rewrite (nth_lookup_Z _ _ _ E1), (nth_lookup_Z _ _ _ E2) in H.
      injection H as H. eapply lxor_cancel_r, H.
    + symmetry. apply lookup_ge_None. apply lookup_ge_None in E1. lia.
  - apply (f_equal (fun l => l !! j)) in H.
    rewrite !list_lookup_insert_ne in H by assumption. exact H.
Qed.

Lemma salt_loop_inj salt : forall i c1 c2 r,
  length c1 = length c2 ->
  salt_loop i salt c1 = Returns r ->
  salt_loop i salt c2 = Returns r ->
  c1 = c2.
Proof.
  induction salt as [| s rest IH]; intros i c1 c2 r Hlen H1 H2; simpl in *.
  - congruence.
  - rewrite <- Hlen in H2.
    destruct (Nat.ltb_spec i (length c1)); [| discriminate].
    apply (insert_xor_inj c1 c2 i s Hlen).
    apply (IH (S i) _ _ r); [| assumption | assumption].
    rewrite !length_insert. exact Hlen.
Qed.

(** C4: for a 14-byte session salt, the counter block is the big-endian
    layout (bytes 0 to 3 zero, 4 to 7 the stream identifier, 8 to 11 the
    rollover counter, 12 and 13 the sequence number, 14 and 15 zero) with
    the salt mixed byte for byte into its first 14 bytes; bytes 14 and 15
    are those of the layout. *)
Theorem counter_block_layout (c : Context) (seq : Z) :
  length (sessionSalt c) = saltLen ->
  0 <= seq < 2 ^ 16 ->
  let layout := counter_layout (ssrc c) (rolloverCounter c) seq in
  generateCounter c seq =
    Returns (xor_bytes (take 14 layout) (sessionSalt c) ++ drop 14 layout) /\
  take 4 layout = [0; 0; 0; 0] /\
  take 4 (drop 4 layout) = be32 (ssrc c) /\
  take 4 (drop 8 layout) = be32 (rolloverCounter c) /\
  take 4 (drop 12 layout) = be32 (uint32 (Z.shiftl seq 16)) /\
  drop 14 layout = [0; 0].
Proof.
  intros Hs Hseq layout.
  assert (Hl : layout = [0; 0; 0; 0] ++ be32 (ssrc c) ++ be32 (rolloverCounter c)
                          ++ be32 (uint32 (Z.shiftl seq 16))).
  { unfold layout, counter_layout. rewrite (be32_shifted_seq seq Hseq).
    reflexivity. }
  split; [| split; [| split; [| split; [| split]]]];
    try reflexivity.
  - rewrite generateCounter_fields, <- Hl.
    generalize (sessionSalt c), Hs. intros salt Hsalt.
    list_of_length salt Hsalt. reflexivity.
  - rewrite (be32_shifted_seq seq Hseq). reflexivity.
Qed.

Lemma counter_block_layout_witness :
  generateCounter (set_rolloverCounter 3 (set_ssrc 1000 rfc_context)) 5 =
  Returns [48; 203; 188; 8; 134; 61; 143; 109; 212; 157; 179; 73; 154; 228; 0; 0].
Proof.
  destruct (counter_block_layout (set_rolloverCounter 3 (set_ssrc 1000 rfc_context)) 5)
    as (H & _); [vm_compute; reflexivity | lia |].
  rewrite H. vm_compute. reflexivity.
Defined.

(** C3: for one stream identifier and one session salt (of at most 16
    bytes, so that the generator returns), the counter blocks of two pairs
    of a rollover counter and a sequence number are equal only if the pairs
    are. *)
Theorem counter_block_injective (c : Context) (roc1 seq1 roc2 seq2 : Z) :
  (length (sessionSalt c) <= 16)%nat ->
  0 <= roc1 < 2 ^ 32 -> 0 <= seq1 < 2 ^ 16 ->
  0 <= roc2 < 2 ^ 32 -> 0 <= seq2 < 2 ^ 16 ->
  exists b1 b2,
    generateCounter (set_rolloverCounter roc1 c) seq1 = Returns b1 /\
    generateCounter (set_rolloverCounter roc2 c) seq2 = Returns b2 /\
    (b1 = b2 -> roc1 = roc2 /\ seq1 = seq2).
Proof.
  intros Hs Hr1 Hq1 Hr2 Hq2.
  rewrite !generateCounter_fields.
  cbn [sessionSalt ssrc rolloverCounter set_rolloverCounter].
  rewrite (be32_shifted_seq seq1 Hq1), (be32_shifted_seq seq2 Hq2).
  set (l1 := [0; 0; 0; 0] ++ be32 (ssrc c) ++ be32 roc1 ++ be16 seq1 ++ [0; 0]).
  set (l2 := [0; 0; 0; 0] ++ be32 (ssrc c) ++ be32 roc2 ++ be16 seq2 ++ [0; 0]).
  destruct (salt_loop_total (sessionSalt c) 0 l1) as (b1 & Hb1 & _);
    [simpl; lia |].
  destruct (salt_loop_total (sessionSalt c) 0 l2) as (b2 & Hb2 & _);
    [simpl; lia |].
  exists b1, b2. split; [exact Hb1 | split; [exact Hb2 |]].
  intros <-.
  assert (Heq : l1 = l2)
    by (apply (salt_loop_inj (sessionSalt c) 0 l1 l2 b1); auto).
  unfold l1, l2 in Heq.
  apply app_inv_head in Heq. apply app_inv_head in Heq.
  unfold be32, be16 in Heq. cbn [app] in Heq.
  injection Heq as H24 H16 H8 H0 H8' H0'.
  assert (Hroc : be32 roc1 = be32 roc2) by (unfold be32; congruence).
  assert (Hseq : be16 seq1 = be16 seq2) by (unfold be16; congruence).
  split; [apply be32_inj | apply be16_inj]; assumption.
Qed.

Lemma counter_block_injective_witness :
  exists b1 b2,
    generateCounter (set_rolloverCounter 0 rfc_context) 65535 = Returns b1 /\
    generateCounter (set_rolloverCounter 1 rfc_context) 0 = Returns b2 /\
    (b1 = b2 -> 0 = 1 /\ 65535 = 0).
Proof.
  apply (counter_block_injective rfc_context 0 65535 1 0);
    [vm_compute; lia | lia | lia | lia | lia].
Defined.

(** ** DecryptPacket: the stream check *)

Lemma stream_check_true c packet :
  negb (ssrc c =? 0) && negb (ssrc c =? SSRC packet) = true <->
  ssrc c <> 0 /\ ssrc c <> SSRC packet.
Proof.
  destruct (Z.eqb_spec (ssrc c) 0), (Z.eqb_spec (ssrc c) (SSRC packet));
    simpl; split; intros H; try discriminate; try tauto; auto.
Qed.

Lemma stream_check_false c packet :
  negb (ssrc c =? 0) && negb (ssrc c =? SSRC packet) = false <->
  accepted c packet.
Proof.
  unfold accepted.
  destruct (Z.eqb_spec (ssrc c) 0), (Z.eqb_spec (ssrc c) (SSRC packet));
    simpl; split; intros H; try discriminate; try tauto; auto.
Qed.

Lemma DecryptPacket_mismatch `{Runtime} c packet h :
  ssrc c <> 0 -> ssrc c <> SSRC packet ->
  DecryptPacket c packet h = (Returns false, mkState c packet h).
Proof.
  intros H0 H1. unfold DecryptPacket.
  destruct (negb (ssrc c =? 0) && negb (ssrc c =? SSRC packet)) eqn:E;
    [reflexivity |].
  apply stream_check_false in E. destruct E; contradiction.
Qed.

(** Past the stream check a call binds the context to the packet's stream,
    whatever happens next, keeps the keys, and does not return [false]. *)
Lemma DecryptPacket_accepted `{Runtime} c packet h :
  accepted c packet ->
  fst (DecryptPacket c packet h) <> Returns false /\
  ssrc (ctx (snd (DecryptPacket c packet h))) = SSRC packet /\
  sessionSalt (ctx (snd (DecryptPacket c packet h))) = sessionSalt c /\
  sessionKey (ctx (snd (DecryptPacket c packet h))) = sessionKey c /\
  block (ctx (snd (DecryptPacket c packet h))) = block c.
Proof.
  intros Ha. apply stream_check_false in Ha. unfold DecryptPacket. rewrite Ha.
  set (c' := updateRolloverCount (set_ssrc (SSRC packet) c) (SequenceNumber packet)).
  assert (Hc : ssrc c' = SSRC packet /\ sessionSalt c' = sessionSalt c /\
               sessionKey c' = sessionKey c /\ block c' = block c).
  { unfold c'. rewrite updateRolloverCount_ssrc.
    destruct (updateRolloverCount_keys (set_ssrc (SSRC packet) c) (SequenceNumber packet))
      as (-> & -> & ->). repeat split. }
  destruct (generateCounter c' (SequenceNumber packet) ≫= cipher.NewCTR (block c'));
    [| split; [discriminate | exact Hc]].
  destruct (reslice (Payload packet) _); [| split; [discriminate | exact Hc]].
  destruct (reslice (Raw (set_Payload a0 packet)) _);
    [| split; [discriminate | exact Hc]].
  destruct (append _ _ _). split; [discriminate | exact Hc].
Qed.

(** C1: a packet of another stream than the one the context is bound to is
    rejected with [false] and nothing is changed: the context (rollover
    counter, last sequence number, initialized flag, stream identifier), the
    packet and the store that holds its payload and raw buffers are the ones
    before the call; and [false] is returned in this case only. *)
Theorem decrypt_rejects_other_stream `{Runtime}
    (c : Context) (packet : Packet) (h : Heap) :
  (ssrc c <> 0 -> ssrc c <> SSRC packet ->
   DecryptPacket c packet h = (Returns false, mkState c packet h)) /\
  (fst (DecryptPacket c packet h) = Returns false ->
   ssrc c <> 0 /\ ssrc c <> SSRC packet).
Proof.
  split.
  - apply DecryptPacket_mismatch.
  - intros Hf.
    destruct (negb (ssrc c =? 0) && negb (ssrc c =? SSRC packet)) eqn:E.
    + apply stream_check_true. exact E.
    + apply stream_check_false in E.
      destruct (DecryptPacket_accepted c packet h E) as (Hn & _).
      contradiction.
Qed.

Lemma decrypt_rejects_other_stream_witness :
  @DecryptPacket exact_runtime (set_ssrc 1000 rfc_context)
    (sample_packet 2000 7) sample_heap =
  (Returns false, mkState (set_ssrc 1000 rfc_context) (sample_packet 2000 7) sample_heap).
Proof.
  apply (proj1 (@decrypt_rejects_other_stream exact_runtime
                  (set_ssrc 1000 rfc_context) (sample_packet 2000 7) sample_heap));
    vm_compute; discriminate.
Defined.

(** ** DecryptPacket: the binding to a stream *)

(** A call on a context bound to [id] leaves it bound to [id], and rejects a
    packet of another stream. *)
Lemma DecryptPacket_bound `{Runtime} c packet h id :
  ssrc c = id -> id <> 0 ->
  ssrc (ctx (snd (DecryptPacket c packet h))) = id /\
  (SSRC packet <> id -> fst (DecryptPacket c packet h) = Returns false).
Proof.
  intros Hc Hid.
  destruct (Z.eq_dec (SSRC packet) id) as [He | Hne].
  - destruct (DecryptPacket_accepted c packet h) as (_ & Hs & _).
    + right. congruence.
    + split; [congruence | contradiction].
  - rewrite DecryptPacket_mismatch by congruence. split; auto.
Qed.

Lemma run_length `{Runtime} calls : forall c, length (run c calls) = length calls.
Proof.
  induction calls as [| [q hq] calls IH]; intros c; simpl; [| rewrite IH];
    reflexivity.
Qed.

Lemma run_bound `{Runtime} calls id : forall c,
  ssrc c = id -> id <> 0 ->
  forall i q hq r,
    calls !! i = Some (q, hq) -> run c calls !! i = Some r ->
    ssrc (ctx (snd r)) = id /\ (SSRC q <> id -> fst r = Returns false).
Proof.
  induction calls as [| [p hp] calls IH]; intros c Hc Hid i q hq r Hq Hr.
  - discriminate.
  - destruct (DecryptPacket_bound c p hp id Hc Hid) as (Hs & Hf).
    destruct i as [| i]; simpl in Hq, Hr.
    + injection Hq as -> ->. injection Hr as <-. split; assumption.
    + apply (IH _ Hs Hid i q hq r Hq Hr).
Qed.

(** C7, as amended: once a context has processed a first packet whose stream
    identifier is not zero, every call leaves the context bound to that
    identifier, the first call too, and every call with a packet of another
    identifier returns [false]; every call has an outcome. *)
Theorem binding_is_permanent `{Runtime}
    (c : Context) (packet : Packet) (h : Heap) (rest : list (Packet * Heap)) :
  accepted c packet ->
  SSRC packet <> 0 ->
  length (run c ((packet, h) :: rest)) = S (length rest) /\
  forall i q hq r,
    ((packet, h) :: rest) !! i = Some (q, hq) ->
    run c ((packet, h) :: rest) !! i = Some r ->
    ssrc (ctx (snd r)) = SSRC packet /\
    (SSRC q <> SSRC packet -> fst r = Returns false).
Proof.
  intros Ha Hid. split; [apply (run_length ((packet, h) :: rest)) |].
  intros i q hq r Hq Hr.
  destruct (DecryptPacket_accepted c packet h Ha) as (_ & Hs & _).
  destruct i as [| i]; simpl in Hq, Hr.
  - injection Hq as -> ->. injection Hr as <-. split; [exact Hs | contradiction].
  - apply (run_bound rest (SSRC packet) _ Hs Hid i q hq r Hq Hr).
Qed.

Lemma binding_is_permanent_witness :
  exists r,
    @run exact_runtime rfc_context
      [(sample_packet 1000 5, sample_heap); (sample_packet 2000 6, sample_heap)]
      !! 1%nat = Some r /\
    ssrc (ctx (snd r)) = 1000 /\ fst r = Returns false.
Proof.
  eexists. split; [reflexivity |].
  destruct (@binding_is_permanent exact_runtime rfc_context
              (sample_packet 1000 5) sample_heap
              [(sample_packet 2000 6, sample_heap)]) as (_ & Hb).
  - left. vm_compute. reflexivity.
  - vm_compute. discriminate.
  - destruct (Hb 1%nat (sample_packet 2000 6) sample_heap _ eq_refl eq_refl)
      as (Hs & Hf).
    split; [exact Hs | apply Hf; vm_compute; discriminate].
Defined.

(** C7 as stated fails when the first packet has stream identifier 0: the
    context stays unbound, and a second packet with identifier 5 is
    decrypted and binds the context to 5. *)
Lemma rebinding_after_stream_zero :
  exists r1 r2,
    @run exact_runtime rfc_context
      [(sample_packet 0 7, sample_heap); (sample_packet 5 8, sample_heap)]
      = [r1; r2] /\
    ssrc (ctx (snd r1)) = 0 /\
    SSRC (sample_packet 5 8) <> SSRC (sample_packet 0 7) /\
    fst r2 = Returns true /\
    ssrc (ctx (snd r2)) = 5.
Proof.
  eexists _, _. split; [reflexivity |].
  vm_compute. repeat split; discriminate.
Qed.

(** ** DecryptPacket: the steps after the stream check *)

(** A context in use has a stream for every packet: the counter block has
    16 bytes and the block cipher is there. *)
Lemma stream_of_context c seq :
  wf_context c ->
  exists counter blk,
    generateCounter c seq = Returns counter /\
    length counter = 16%nat /\
    block c = Some blk /\
    aes.NewCipher (sessionKey c) = inl blk /\
    (counter ← generateCounter c seq; cipher.NewCTR (block c) counter)
      = Returns (cipher.mkStream blk counter).
Proof.
  intros (Hsalt & Hblk).
  destruct (block c) as [blk |] eqn:Eb; [| contradiction].
  rewrite generateCounter_fields.
  destruct (salt_loop_total (sessionSalt c) 0
              ([0; 0; 0; 0] ++ be32 (ssrc c) ++ be32 (rolloverCounter c)
                 ++ be32 (uint32 (Z.shiftl seq 16))))
    as (counter & Hc & Hl).
  { rewrite Hsalt. unfold saltLen, be32. cbn [app length]. lia. }
  exists counter, blk. rewrite Hc. unfold be32 in Hl. cbn [app length] in Hl.
  repeat split; try assumption.
  cbn [mbind outcome_bind]. unfold cipher.NewCTR. rewrite Hl. reflexivity.
Qed.

Lemma wf_context_update c id seq :
  wf_context c -> wf_context (updateRolloverCount (set_ssrc id c) seq).
Proof.
  unfold wf_context.
  destruct (updateRolloverCount_keys (set_ssrc id c) seq) as (-> & -> & ->).
  auto.
Qed.

(** A call leaves a context in use in use, whatever its outcome. *)
Lemma wf_context_preserved `{Runtime} c packet h :
  wf_context c -> wf_context (ctx (snd (DecryptPacket c packet h))).
Proof.
  intros Hwf.
  destruct (negb (ssrc c =? 0) && negb (ssrc c =? SSRC packet)) eqn:E.
  - apply stream_check_true in E. destruct E as (H0 & H1).
    rewrite DecryptPacket_mismatch by assumption. exact Hwf.
  - apply stream_check_false in E.
    destruct (DecryptPacket_accepted c packet h E) as (_ & _ & Hs & Hk & Hb).
    unfold wf_context in *. rewrite Hs, Hk, Hb. exact Hwf.
Qed.

(** The steps of an accepted call on a context in use. *)
Lemma DecryptPacket_steps `{Runtime} c packet h :
  wf_context c ->
  accepted c packet ->
  let c' := updateRolloverCount (set_ssrc (SSRC packet) c) (SequenceNumber packet) in
  exists counter blk,
    generateCounter c' (SequenceNumber packet) = Returns counter /\
    length counter = 16%nat /\
    aes.NewCipher (sessionKey c) = inl blk /\
    let h1 := write_at h (arr (Payload packet)) (off (Payload packet))
                (cipher.XORKeyStream (cipher.mkStream blk counter)
                   (read h (Payload packet))) in
    DecryptPacket c packet h =
      match reslice (Payload packet) (Z.of_nat (len (Payload packet)) - tagLen) with
      | Panics p => (Panics p, mkState c' packet h1)
      | Returns payload =>
          match reslice (Raw packet) (PayloadOffset packet) with
          | Panics p => (Panics p, mkState c' (set_Payload payload packet) h1)
          | Returns raw =>
              let '(raw, h2) := append raw (read h1 payload) h1 in
              (Returns true, mkState c' (set_Raw raw (set_Payload payload packet)) h2)
          end
      end.
Proof.
  intros Hwf Ha c'.
  destruct (stream_of_context c' (SequenceNumber packet))
    as (counter & blk & Hc & Hl & _ & Hk & Hs).
  { apply wf_context_update, Hwf. }
  exists counter, blk. split; [exact Hc |]. split; [exact Hl |]. split.
  { unfold c' in Hk.
    destruct (updateRolloverCount_keys (set_ssrc (SSRC packet) c) (SequenceNumber packet))
      as (_ & Hsk & _).
    rewrite Hsk in Hk. exact Hk. }
  intros h1. unfold DecryptPacket.
  apply stream_check_false in Ha. rewrite Ha. fold c'. rewrite Hs.
  reflexivity.
Qed.

(** C10: on the accepted path of a context in use, a payload of fewer than
    10 bytes makes the trim [Payload[:len-10]] panic with a negative bound;
    with 10 bytes or more the trim is in bounds and leaves [len - 10] bytes,
    and the call then returns [true] when the payload offset is within the
    capacity of the raw buffer and panics at [Raw[0:PayloadOffset]]
    otherwise. *)
Theorem trim_needs_ten_bytes `{Runtime} (c : Context) (packet : Packet) (h : Heap) :
  wf_context c ->
  accepted c packet ->
  (len (Payload packet) <= cap (Payload packet))%nat ->
  let n := len (Payload packet) in
  let trimmed :=
    mkSlice (arr (Payload packet)) (off (Payload packet)) (n - 10) (cap (Payload packet)) in
  if (n <? 10)%nat
  then exists st,
         DecryptPacket c packet h =
         (Panics (SliceBoundsOutOfRange (Z.of_nat n - 10) (cap (Payload packet))), st)
  else reslice (Payload packet) (Z.of_nat n - 10) = Returns trimmed /\
       if (0 <=? PayloadOffset packet)
            && (PayloadOffset packet <=? Z.of_nat (cap (Raw packet)))
       then exists st,
              DecryptPacket c packet h = (Returns true, st) /\
              Payload (pkt st) = trimmed
       else exists st,
              DecryptPacket c packet h =
              (Panics (SliceBoundsOutOfRange (PayloadOffset packet) (cap (Raw packet))), st) /\
              Payload (pkt st) = trimmed.
Proof.
  intros Hwf Ha Hcap n trimmed.
  destruct (DecryptPacket_steps c packet h Hwf Ha)
    as (counter & blk & _ & _ & _ & Hd).
  cbv zeta in Hd. rewrite Hd. clear Hd.
  unfold tagLen. fold n.
  destruct (Nat.ltb_spec n 10) as [Hn | Hn].
  - unfold reslice.
    destruct (Z.leb_spec 0 (Z.of_nat n - 10)); [lia |].
    cbn [andb]. eexists. reflexivity.
  - assert (Hr : reslice (Payload packet) (Z.of_nat n - 10) = Returns trimmed).
    { unfold reslice.
      destruct (Z.leb_spec 0 (Z.of_nat n - 10)); [| lia].
      destruct (Z.leb_spec (Z.of_nat n - 10) (Z.of_nat (cap (Payload packet))));
        [| unfold n in *; lia].
      cbn [andb]. unfold trimmed. do 2 f_equal. lia. }
    split; [exact Hr |]. rewrite Hr.
    unfold reslice. cbn [Raw PayloadOffset set_Payload].
    destruct ((0 <=? PayloadOffset packet)
              && (PayloadOffset packet <=? Z.of_nat (cap (Raw packet)))).
    + destruct (append _ _ _) as [raw h2]. eexists. split; reflexivity.
    + eexists. split; reflexivity.
Qed.

Lemma trim_needs_ten_bytes_witness :
  exists st,
    @DecryptPacket exact_runtime rfc_context short_packet sample_heap =
    (Panics (SliceBoundsOutOfRange (-5) 26), st).
Proof.
  apply (@trim_needs_ten_bytes exact_runtime rfc_context short_packet sample_heap).
  - split; vm_compute; reflexivity.
  - left. vm_compute. reflexivity.
  - cbn. lia.
Defined.

(** ** The key stream *)

Lemma keystream_length n : forall blk ctr,
  length (cipher.keystream n blk ctr) = (16 * n)%nat.
Proof.
  induction n as [| n IH]; intros blk ctr; [reflexivity |].
  cbn [cipher.keystream]. rewrite length_app, encryptBlock_length, IH.
  unfold aes.BlockSize. lia.
Qed.

Lemma xor_bytes_length x ks :
  (length x <= length ks)%nat -> length (xor_bytes x ks) = length x.
Proof. intros Hl. unfold xor_bytes. rewrite length_zip_with. lia. Qed.

Lemma xor_bytes_involutive x : forall ks,
  (length x <= length ks)%nat -> xor_bytes (xor_bytes x ks) ks = x.
Proof.
  induction x as [| a x IH]; intros [| k ks] Hl; simpl in *;
    try reflexivity; try lia.
  rewrite lxor_involutive. f_equal. apply IH. lia.
Qed.

Lemma XORKeyStream_length s src :
  length (cipher.XORKeyStream s src) = length src.
Proof.
  unfold cipher.XORKeyStream. apply xor_bytes_length.
  rewrite keystream_length.
  pose proof (Nat.div_mod_eq (length src + 15) 16).
  pose proof (Nat.mod_upper_bound (length src + 15) 16). lia.
Qed.

(** Applying the stream of one block cipher and one counter twice gives the
    bytes back. *)
Lemma XORKeyStream_involutive s src :
  cipher.XORKeyStream s (cipher.XORKeyStream s src) = src.
Proof.
  unfold cipher.XORKeyStream at 1. rewrite XORKeyStream_length.
  unfold cipher.XORKeyStream. apply xor_bytes_involutive.
  rewrite keystream_length.
  pose proof (Nat.div_mod_eq (length src + 15) 16).
  pose proof (Nat.mod_upper_bound (length src + 15) 16). lia.
Qed.

(** ** The store *)

Lemma array_write_same (h : Heap) a o v :
  (a < length h)%nat -> array (write_at h a o v) a = splice o v (array h a).
Proof.
  intros Ha. unfold write_at. unfold array at 1.
  rewrite list_lookup_insert_eq by exact Ha. reflexivity.
Qed.

Lemma array_write_other (h : Heap) a a' o v :
  a <> a' -> array (write_at h a o v) a' = array h a'.
Proof.
  intros Hne. unfold write_at. unfold array at 1.
  rewrite list_lookup_insert_ne by exact Hne. reflexivity.
Qed.

Lemma array_alloc (h : Heap) x a :
  (a < length h)%nat -> array (h ++ [x]) a = array h a.
Proof. intros Ha. unfold array. rewrite lookup_app_l by exact Ha. reflexivity. Qed.

Lemma array_allocated (h : Heap) a :
  (0 < length (array h a))%nat -> (a < length h)%nat.
Proof.
  unfold array. destruct (h !! a) as [l |] eqn:E; simpl; [| lia].
  intros _. eapply lookup_lt_Some, E.
Qed.

Lemma write_at_length (h : Heap) a o v : length (write_at h a o v) = length h.
Proof. unfold write_at. apply length_insert. Qed.

Lemma splice_length o (v l : list Z) :
  (o + length v <= length l)%nat -> length (splice o v l) = length l.
Proof.
  intros Hl. unfold splice.
  rewrite !length_app, length_take, length_drop. lia.
Qed.

(** Reading back what has been written. *)
Lemma take_drop_splice o m (v l : list Z) :
  (o + length v <= length l)%nat -> (m <= length v)%nat ->
  take m (drop o (splice o v l)) = take m v.
Proof.
  intros Hl Hm. unfold splice.
  rewrite drop_app_length' by (rewrite length_take; lia).
  apply take_app_le, Hm.
Qed.

Lemma read_length (h : Heap) s : slice_ok h s -> length (read h s) = len s.
Proof.
  intros (Hc & Ha). unfold read. rewrite length_take, length_drop. lia.
Qed.

(** ** The round trip *)

(** C8: for a plaintext followed by a 10-byte tag placeholder and encrypted
    under the key stream of the context's session key from the counter block
    of the packet's stream identifier and sequence number and the rollover
    counter that the context's tracker reaches on this sequence number,
    [DecryptPacket] on a context in use that accepts the packet returns
    [true] and leaves the plaintext as the payload.  The packet is a parsed
    one: its payload offset is within the raw buffer, and its payload is
    either in another array than the raw buffer or starts at the payload
    offset of the raw buffer. *)
Theorem decrypt_inverts_encrypt `{Runtime}
    (c : Context) (packet : Packet) (h : Heap) (roc : Z) (plain tag : list Z) :
  wf_context c ->
  accepted c packet ->
  rolloverCounter
    (updateRolloverCount (set_ssrc (SSRC packet) c) (SequenceNumber packet)) = roc ->
  length tag = 10%nat ->
  slice_ok h (Payload packet) ->
  encryptPayload c (SSRC packet) roc (SequenceNumber packet) (plain ++ tag)
    = Returns (read h (Payload packet)) ->
  0 <= PayloadOffset packet <= Z.of_nat (cap (Raw packet)) ->
  (arr (Payload packet) <> arr (Raw packet) \/
   Z.of_nat (off (Raw packet)) + PayloadOffset packet
     = Z.of_nat (off (Payload packet))) ->
  exists st,
    DecryptPacket c packet h = (Returns true, st) /\
    read (heap st) (Payload (pkt st)) = plain.
Proof.
  intros Hwf Ha Hroc Htag Hok Henc Hpo Halias.
  destruct (DecryptPacket_steps c packet h Hwf Ha)
    as (counter & blk & Hc & Hl & Hk & Hd).
  cbv zeta in Hd. rewrite Hd. clear Hd.
  set (c' := updateRolloverCount (set_ssrc (SSRC packet) c) (SequenceNumber packet)) in *.
  (* the receiver's stream is the sender's *)
  assert (Hct : read h (Payload packet) =
                cipher.XORKeyStream (cipher.mkStream blk counter) (plain ++ tag)).
  { unfold encryptPayload in Henc.
    rewrite (generateCounter_ext _ c'), Hc in Henc.
    - cbn [mbind outcome_bind] in Henc. rewrite Hk in Henc.
      unfold cipher.NewCTR in Henc. rewrite Hl in Henc.
      cbn [Nat.eqb aes.BlockSize mbind outcome_bind] in Henc.
      injection Henc as Henc. symmetry. exact Henc.
    - unfold c'. rewrite updateRolloverCount_ssrc. reflexivity.
    - symmetry. exact Hroc.
    - unfold c'.
      destruct (updateRolloverCount_keys (set_ssrc (SSRC packet) c) (SequenceNumber packet))
        as (-> & _). reflexivity. }
  assert (Hlen : len (Payload packet) = (length plain + 10)%nat).
  { rewrite <- (read_length h _ Hok), Hct, XORKeyStream_length, length_app. lia. }
  assert (Hdec : cipher.XORKeyStream (cipher.mkStream blk counter)
                    (read h (Payload packet)) = plain ++ tag)
    by (rewrite Hct; apply XORKeyStream_involutive).
  rewrite Hdec.
  destruct Hok as (Hcap & Harr).
  set (a := arr (Payload packet)) in *. set (o := off (Payload packet)) in *.
  set (h1 := write_at h a o (plain ++ tag)).
  assert (Ha1 : (a < length h)%nat) by (apply array_allocated; lia).
  assert (Hl1 : length (array h1 a) = length (array h a)).
  { unfold h1. rewrite array_write_same by exact Ha1.
    apply splice_length. rewrite length_app. lia. }
  set (trimmed := mkSlice a o (length plain) (cap (Payload packet))).
  assert (Hr : reslice (Payload packet) (Z.of_nat (len (Payload packet)) - tagLen)
               = Returns trimmed).
  { unfold reslice, tagLen.
    destruct (Z.leb_spec 0 (Z.of_nat (len (Payload packet)) - 10)); [| lia].
    destruct (Z.leb_spec (Z.of_nat (len (Payload packet)) - 10)
                (Z.of_nat (cap (Payload packet)))); [| lia].
    cbn [andb]. unfold trimmed. do 2 f_equal. lia. }
  rewrite Hr.
  assert (Hread : read h1 trimmed = plain).
  { unfold read, trimmed, h1. cbn [arr off len].
    rewrite array_write_same by exact Ha1.
    rewrite take_drop_splice; rewrite ?length_app; try lia.
    apply take_app_length. }
  unfold reslice. cbn [Raw PayloadOffset set_Payload].
  destruct (Z.leb_spec 0 (PayloadOffset packet)); [| lia].
  destruct (Z.leb_spec (PayloadOffset packet) (Z.of_nat (cap (Raw packet)))); [| lia].
  cbn [andb]. rewrite Hread. unfold append. cbn [len cap arr off].
  destruct (Nat.leb_spec (Z.to_nat (PayloadOffset packet) + length plain)
              (cap (Raw packet))) as [Hfit | Hgrow].
  - (* in place *)
    eexists. split; [reflexivity |]. cbn [heap pkt Payload set_Raw set_Payload].
    destruct (decide (arr (Raw packet) = a)) as [Heq | Hne].
    + destruct Halias as [Hd | Hoff]; [congruence |].
      rewrite Heq.
      replace (off (Raw packet) + Z.to_nat (PayloadOffset packet))%nat with o by lia.
      unfold read, trimmed. cbn [arr off len].
      rewrite array_write_same by (unfold h1; rewrite write_at_length; exact Ha1).
      rewrite take_drop_splice by lia.
      apply firstn_all.
    + unfold read, trimmed. cbn [arr off len].
      rewrite array_write_other by exact Hne. exact Hread.
  - (* into a new array *)
    eexists. split; [reflexivity |]. cbn [heap pkt Payload set_Raw set_Payload].
    unfold read, trimmed. cbn [arr off len].
    rewrite array_alloc by (unfold h1; rewrite write_at_length; exact Ha1).
    exact Hread.
Qed.

Lemma decrypt_inverts_encrypt_witness :
  exists st,
    @DecryptPacket exact_runtime rfc_context (sample_packet 1000 5) roundtrip_heap
      = (Returns true, st) /\
    read (heap st) (Payload (pkt st)) = sample_plain.
Proof.
  apply (@decrypt_inverts_encrypt exact_runtime rfc_context (sample_packet 1000 5)
           roundtrip_heap 0 sample_plain sample_tag).
  - split; vm_compute; reflexivity.
  - left. vm_compute. reflexivity.
  - vm_compute. reflexivity.
  - vm_compute. reflexivity.
  - split; vm_compute; lia.
  - vm_compute. reflexivity.
  - vm_compute. split; discriminate.
  - right. vm_compute. reflexivity.
Defined.

(** * Further properties *)

(** ** The rollover counter, away from and across the wrap *)

Lemma updateRolloverCount_midrange c seq :
  100 <= seq <= 65435 ->
  rolloverCounter (updateRolloverCount c seq) = rolloverCounter c.
Proof.
  intros Hs. rewrite updateRolloverCount_is_table. unfold rollover_table.
  destruct (rolloverHasProcessed c); simpl; [| reflexivity].
  split_cmp; simpl; try reflexivity; lia.
Qed.

(** Sequence numbers between 100 and 65435, in any order and from any state
    of the tracker, leave the rollover counter as it is. *)
Theorem feed_midrange_keeps_counter (seqs : list Z) : forall c : Context,
  Forall (fun seq => 100 <= seq <= 65435) seqs ->
  rolloverCounter (feed c seqs) = rolloverCounter c.
Proof.
  induction seqs as [| seq seqs IH]; intros c Hall; [reflexivity |].
  inversion Hall as [| ? ? Hseq Hrest]; subst.
  cbn [feed fold_left]. fold (feed (updateRolloverCount c seq) seqs).
  rewrite IH by exact Hrest. apply updateRolloverCount_midrange, Hseq.
Qed.

Lemma feed_midrange_keeps_counter_witness :
  rolloverCounter (feed (set_rolloverCounter 7 rfc_context) [30000; 200; 65000; 100; 65435])
  = 7.
Proof.
  rewrite (feed_midrange_keeps_counter [30000; 200; 65000; 100; 65435]
             (set_rolloverCounter 7 rfc_context)).
  - reflexivity.
  - repeat (constructor; [lia |]). constructor.
Defined.

Lemma incr32_add r n :
  incr32 ((r + n) mod 2 ^ 32) = (r + (n + 1)) mod 2 ^ 32.
Proof.
  unfold incr32. rewrite Z.add_mod_idemp_l by lia. f_equal. lia.
Qed.

Lemma decr32_incr32 r : 0 <= r < 2 ^ 32 -> decr32 (incr32 r) = r.
Proof.
  intros Hr. unfold decr32, incr32.
  rewrite Zminus_mod_idemp_l. replace (r + 1 - 1) with r by lia.
  apply Z.mod_small, Hr.
Qed.

(** A run 0, 1, ..., k after 65535: one increment, at the 0. *)
Lemma feed_wrap_run c (k : nat) :
  rolloverHasProcessed c = true ->
  lastSequenceNumber c = 65535 ->
  rolloverCounter (feed c (seqZ 0 (Z.of_nat (S k)))) = incr32 (rolloverCounter c) /\
  rolloverHasProcessed (feed c (seqZ 0 (Z.of_nat (S k)))) = true /\
  lastSequenceNumber (feed c (seqZ 0 (Z.of_nat (S k)))) = Z.of_nat k.
Proof.
  intros Hp Hl. rewrite Nat2Z.inj_succ, seqZ_cons by lia.
  replace (Z.pred (Z.succ (Z.of_nat k))) with (Z.of_nat k) by lia.
  cbn [feed fold_left].
  destruct (feed_ascending k (updateRolloverCount c 0) 0) as (Hr & Hp' & Hl').
  - apply updateRolloverCount_processed.
  - apply updateRolloverCount_last.
  - lia.
  - change (Z.succ 0) with (0 + 1). unfold feed in *.
    rewrite Hr, Hp', Hl'. repeat split; try lia.
    rewrite updateRolloverCount_is_table, Hp, Hl. reflexivity.
Qed.

Lemma cycles_S n : cycles (S n) = seqZ 0 65536 ++ cycles n.
Proof. reflexivity. Qed.

(** One more cycle 0, ..., 65535 after 65535: one increment. *)
Lemma feed_cycle c :
  rolloverHasProcessed c = true ->
  lastSequenceNumber c = 65535 ->
  rolloverCounter (feed c (seqZ 0 65536)) = incr32 (rolloverCounter c) /\
  rolloverHasProcessed (feed c (seqZ 0 65536)) = true /\
  lastSequenceNumber (feed c (seqZ 0 65536)) = 65535.
Proof.
  intros Hp Hl.
  destruct (feed_wrap_run c (Z.to_nat 65535) Hp Hl) as (Hr1 & Hp1 & Hl1).
  replace (Z.of_nat (S (Z.to_nat 65535))) with 65536 in * by lia.
  replace (Z.of_nat (Z.to_nat 65535)) with 65535 in * by lia.
  auto.
Qed.

Lemma feed_cycles n : forall c,
  rolloverHasProcessed c = true ->
  lastSequenceNumber c = 65535 ->
  0 <= rolloverCounter c < 2 ^ 32 ->
  rolloverCounter (feed c (cycles n)) = (rolloverCounter c + Z.of_nat n) mod 2 ^ 32 /\
  lastSequenceNumber (feed c (cycles n)) = 65535.
Proof.
  induction n as [| n IH]; intros c Hp Hl Hr.
  - simpl. rewrite Z.add_0_r, Z.mod_small by exact Hr. split; [reflexivity | exact Hl].
  - rewrite cycles_S, feed_app.
    destruct (feed_cycle c Hp Hl) as (Hr1 & Hp1 & Hl1).
    destruct (IH (feed c (seqZ 0 65536)) Hp1 Hl1) as (Hr2 & Hl2).
    { rewrite Hr1. unfold incr32. apply Z.mod_pos_bound. lia. }
    split; [| exact Hl2].
    rewrite Hr2, Hr1. unfold incr32. rewrite Z.add_mod_idemp_l by lia.
    f_equal. lia.
Qed.

(** From a tracker not yet initialized, after [n + 1] whole cycles of
    sequence numbers in order the rollover counter has advanced by [n],
    modulo 2^32: the first pass over 0 is not a wrap, each later one is. *)
Theorem cycles_count_wraps (c : Context) (n : nat) :
  rolloverHasProcessed c = false ->
  0 <= rolloverCounter c < 2 ^ 32 ->
  rolloverCounter (feed c (cycles (S n))) = (rolloverCounter c + Z.of_nat n) mod 2 ^ 32.
Proof.
  intros Hp Hr. rewrite cycles_S, feed_app.
  destruct (feed_from_zero c (Z.to_nat 65535) Hp) as (Hr1 & Hp1 & Hl1).
  replace (Z.of_nat (S (Z.to_nat 65535))) with 65536 in * by lia.
  replace (Z.of_nat (Z.to_nat 65535)) with 65535 in * by lia.
  destruct (feed_cycles n (feed c (seqZ 0 65536)) Hp1 Hl1) as (Hr2 & _).
  - rewrite Hr1. exact Hr.
  - rewrite Hr2, Hr1. reflexivity.
Qed.

Lemma cycles_count_wraps_witness :
  rolloverCounter (feed rfc_context (cycles 4)) = 3.
Proof.
  rewrite (cycles_count_wraps rfc_context 3).
  - vm_compute. reflexivity.
  - vm_compute. reflexivity.
  - vm_compute. split; [discriminate | reflexivity].
Defined.

(** A wrap counted on a packet of the new cycle ([seq] below 100 after a
    last sequence number above 65435) is taken back by a late packet of the
    old cycle ([late] above 65435) and counted again by the next packet of
    the new cycle: the late packet is decrypted under the old counter. *)
Theorem late_packet_restores_counter (c : Context) (seq late next : Z) :
  rolloverHasProcessed c = true ->
  lastSequenceNumber c > 65435 ->
  0 <= rolloverCounter c < 2 ^ 32 ->
  0 <= seq < 100 -> late > 65435 -> 0 <= next < 100 ->
  rolloverCounter (feed c [seq]) = incr32 (rolloverCounter c) /\
  rolloverCounter (feed c [seq; late]) = rolloverCounter c /\
  rolloverCounter (feed c [seq; late; next]) = incr32 (rolloverCounter c).
Proof.
  intros Hp Hl Hr Hs Hlate Hn.
  assert (H1 : rolloverCounter (updateRolloverCount c seq) = incr32 (rolloverCounter c)).
  { rewrite updateRolloverCount_is_table, Hp. unfold rollover_table. simpl.
    split_cmp; simpl; try reflexivity; lia. }
  assert (H2 : rolloverCounter (updateRolloverCount (updateRolloverCount c seq) late)
               = rolloverCounter c).
  { rewrite updateRolloverCount_is_table, updateRolloverCount_processed,
      updateRolloverCount_last, H1.
    unfold rollover_table. simpl.
    split_cmp; simpl; try lia; apply decr32_incr32, Hr. }
  split; [exact H1 | split; [exact H2 |]].
  cbn [feed fold_left].
  rewrite updateRolloverCount_is_table, updateRolloverCount_processed,
    updateRolloverCount_last, H2.
  unfold rollover_table. simpl.
  split_cmp; simpl; try reflexivity; lia.
Qed.

Lemma late_packet_restores_counter_witness :
  rolloverCounter (feed (feed rfc_context [65500]) [50; 65530]) = 0 /\
  rolloverCounter (feed (feed rfc_context [65500]) [50; 65530; 51]) = 1.
Proof.
  destruct (late_packet_restores_counter (feed rfc_context [65500]) 50 65530 51)
    as (_ & H2 & H3);
    [vm_compute; reflexivity | vm_compute; reflexivity
    | vm_compute; split; [discriminate | reflexivity] | lia | lia | lia |].
  rewrite H2, H3. vm_compute. split; reflexivity.
Defined.

(** ** The counter block across streams and across the blocks of a packet *)

Lemma salt_loop_panics salt : forall i counter,
  (i <= length counter)%nat ->
  (length counter < i + length salt)%nat ->
  salt_loop i salt counter =
  Panics (IndexOutOfRange (Z.of_nat (length counter)) (length counter)).
Proof.
  induction salt as [| s rest IH]; intros i counter Hi Hlen; simpl in *; [lia |].
  destruct (Nat.ltb_spec i (length counter)) as [Hlt | Hge].
  - rewrite IH; rewrite ?length_insert; try lia. reflexivity.
  - replace i with (length counter) by lia. reflexivity.
Qed.

(** [generateCounter] returns, and then a block of 16 bytes, exactly when
    the session salt has at most 16 bytes; a longer salt makes the loop over
    the salt index the counter out of range at 16. *)
Theorem generateCounter_returns_iff_salt_fits (c : Context) (seq : Z) :
  if (length (sessionSalt c) <=? 16)%nat
  then exists b, generateCounter c seq = Returns b /\ length b = 16%nat
  else generateCounter c seq = Panics (IndexOutOfRange 16 16).
Proof.
  rewrite generateCounter_fields.
  set (l := [0; 0; 0; 0] ++ be32 (ssrc c) ++ be32 (rolloverCounter c)
              ++ be32 (uint32 (Z.shiftl seq 16))).
  assert (Hl : length l = 16%nat) by reflexivity.
  destruct (Nat.leb_spec (length (sessionSalt c)) 16) as [Hs | Hs].
  - destruct (salt_loop_total (sessionSalt c) 0 l) as (b & Hb & Hlb); [lia |].
    exists b. split; [exact Hb | lia].
  - rewrite salt_loop_panics by lia. rewrite Hl. reflexivity.
Qed.

(** Equal counter blocks under one salt come from equal fields. *)
Lemma generateCounter_inj c1 c2 seq1 seq2 b :
  sessionSalt c1 = sessionSalt c2 ->
  0 <= ssrc c1 < 2 ^ 32 -> 0 <= ssrc c2 < 2 ^ 32 ->
  0 <= rolloverCounter c1 < 2 ^ 32 -> 0 <= rolloverCounter c2 < 2 ^ 32 ->
  0 <= seq1 < 2 ^ 16 -> 0 <= seq2 < 2 ^ 16 ->
  generateCounter c1 seq1 = Returns b ->
  generateCounter c2 seq2 = Returns b ->
  ssrc c1 = ssrc c2 /\ rolloverCounter c1 = rolloverCounter c2 /\ seq1 = seq2.
Proof.
  intros Hsalt Hi1 Hi2 Hr1 Hr2 Hq1 Hq2 H1 H2.
  rewrite generateCounter_fields in H1, H2. rewrite <- Hsalt in H2.
  rewrite (be32_shifted_seq seq1 Hq1) in H1.
  rewrite (be32_shifted_seq seq2 Hq2) in H2.
  assert (Heq : [0; 0; 0; 0] ++ be32 (ssrc c1) ++ be32 (rolloverCounter c1)
                  ++ be16 seq1 ++ [0; 0]
               = [0; 0; 0; 0] ++ be32 (ssrc c2) ++ be32 (rolloverCounter c2)
                  ++ be16 seq2 ++ [0; 0])
    by (apply (salt_loop_inj (sessionSalt c1) 0 _ _ b);
        [reflexivity | exact H1 | exact H2]).
  apply app_inv_head in Heq. unfold be32, be16 in Heq. cbn [app] in Heq.
  injection Heq as A24 A16 A8 A0 B24 B16 B8 B0 C8 C0.
  split; [| split].
  - apply be32_inj; [assumption | assumption | unfold be32; congruence].
  - apply be32_inj; [assumption | assumption | unfold be32; congruence].
  - apply be16_inj; [assumption | assumption | unfold be16; congruence].
Qed.

(** Two contexts that share a session salt, as the contexts of the streams
    of one session do, never produce the same counter block for different
    triples of stream identifier, rollover counter and sequence number. *)
Theorem counter_block_separates_streams
    (c1 c2 : Context) (seq1 seq2 : Z) (b : list Z) :
  sessionSalt c1 = sessionSalt c2 ->
  0 <= ssrc c1 < 2 ^ 32 -> 0 <= ssrc c2 < 2 ^ 32 ->
  0 <= rolloverCounter c1 < 2 ^ 32 -> 0 <= rolloverCounter c2 < 2 ^ 32 ->
  0 <= seq1 < 2 ^ 16 -> 0 <= seq2 < 2 ^ 16 ->
  generateCounter c1 seq1 = Returns b ->
  generateCounter c2 seq2 = Returns b ->
  ssrc c1 = ssrc c2 /\ rolloverCounter c1 = rolloverCounter c2 /\ seq1 = seq2.
Proof. apply generateCounter_inj. Qed.

Lemma counter_block_separates_streams_witness :
  ssrc (set_ssrc 1000 rfc_context)
    = ssrc (set_lastSequenceNumber 9 (set_ssrc 1000 rfc_context)) /\
  rolloverCounter (set_ssrc 1000 rfc_context)
    = rolloverCounter (set_lastSequenceNumber 9 (set_ssrc 1000 rfc_context)) /\
  5 = 5.
Proof.
  apply (counter_block_separates_streams
           (set_ssrc 1000 rfc_context)
           (set_lastSequenceNumber 9 (set_ssrc 1000 rfc_context)) 5 5
           [48; 203; 188; 8; 134; 61; 143; 109; 212; 157; 179; 74; 154; 228; 0; 0]);
    try (vm_compute; split; [discriminate | reflexivity]);
    vm_compute; reflexivity.
Defined.

(** Block [i] of the key stream is the encryption of the counter after [i]
    increments. *)
Lemma keystream_blocks n : forall blk ctr,
  cipher.keystream n blk ctr =
  concat (map (fun i => aes.encryptBlock (aes.enc blk) (Nat.iter i cipher.inc ctr))
            (seq 0 n)).
Proof.
  induction n as [| n IH]; intros blk ctr; [reflexivity |].
  cbn [cipher.keystream seq map concat]. f_equal.
  rewrite IH, <- seq_shift, map_map.
  f_equal. apply map_ext. intros i. rewrite Nat.iter_succ_r. reflexivity.
Qed.

(** An increment of a counter whose last two bytes are not both 255 stays
    in these two bytes. *)
Lemma inc_last_two m a b :
  0 <= a < 256 -> 0 <= b < 256 -> 256 * a + b < 65535 ->
  cipher.inc (m ++ [a; b]) =
  m ++ [(256 * a + b + 1) / 256; (256 * a + b + 1) mod 256].
Proof.
  intros Ha Hb Hab. unfold cipher.inc.
  rewrite rev_app_distr. cbn [rev app cipher.inc_rev].
  destruct (Z.eqb_spec ((b + 1) mod 256) 0) as [Hz | Hnz].
  - destruct (Z.eqb_spec ((a + 1) mod 256) 0) as [Hz' | Hnz'].
    + exfalso. revert Hz Hz'. Z.div_mod_to_equations. lia.
    + cbn [rev]. rewrite rev_involutive, <- !app_assoc. cbn [app].
      do 2 f_equal; [| f_equal]; revert Hz; Z.div_mod_to_equations; lia.
  - cbn [rev]. rewrite rev_involutive, <- !app_assoc. cbn [app].
    do 2 f_equal; [| f_equal]; revert Hnz; Z.div_mod_to_equations; lia.
Qed.

Lemma iter_inc_low m (k : nat) :
  Z.of_nat k <= 65535 ->
  Nat.iter k cipher.inc (m ++ [0; 0]) =
  m ++ [Z.of_nat k / 256; Z.of_nat k mod 256].
Proof.
  induction k as [| k IH]; intros Hk; [reflexivity |].
  rewrite Nat.iter_succ, IH by lia.
  rewrite inc_last_two.
  - rewrite Nat2Z.inj_succ.
    replace (256 * (Z.of_nat k / 256) + Z.of_nat k mod 256 + 1)
      with (Z.succ (Z.of_nat k)) by (Z.div_mod_to_equations; lia).
    reflexivity.
  - Z.div_mod_to_equations. lia.
  - Z.div_mod_to_equations. lia.
  - Z.div_mod_to_equations. lia.
Qed.

(** With a 14-byte salt the counter block ends in two zero bytes, which the
    salt does not reach. *)
Lemma generateCounter_low_bytes c seq b :
  length (sessionSalt c) = saltLen ->
  0 <= seq < 2 ^ 16 ->
  generateCounter c seq = Returns b ->
  exists m, b = m ++ [0; 0] /\ length m = 14%nat.
Proof.
  intros Hs Hq Hb. rewrite generateCounter_fields in Hb.
  rewrite (be32_shifted_seq seq Hq) in Hb.
  revert Hb. generalize (sessionSalt c), Hs. intros salt Hsalt Hb.
  list_of_length salt Hsalt. cbn in Hb. injection Hb as <-.
  eexists [_; _; _; _; _; _; _; _; _; _; _; _; _; _]. split; reflexivity.
Qed.

(** The counters that the key streams of packets go through never meet:
    under one 14-byte session salt, the counter of block [k1] of one packet
    equals the counter of block [k2] of another, both below 65536, only for
    the same stream identifier, rollover counter, sequence number and
    block. *)
Theorem block_counters_never_reused
    (c1 c2 : Context) (seq1 seq2 : Z) (b1 b2 : list Z) (k1 k2 : nat) :
  sessionSalt c1 = sessionSalt c2 ->
  length (sessionSalt c1) = saltLen ->
  0 <= ssrc c1 < 2 ^ 32 -> 0 <= ssrc c2 < 2 ^ 32 ->
  0 <= rolloverCounter c1 < 2 ^ 32 -> 0 <= rolloverCounter c2 < 2 ^ 32 ->
  0 <= seq1 < 2 ^ 16 -> 0 <= seq2 < 2 ^ 16 ->
  Z.of_nat k1 < 65536 -> Z.of_nat k2 < 65536 ->
  generateCounter c1 seq1 = Returns b1 ->
  generateCounter c2 seq2 = Returns b2 ->
  Nat.iter k1 cipher.inc b1 = Nat.iter k2 cipher.inc b2 ->
  ssrc c1 = ssrc c2 /\ rolloverCounter c1 = rolloverCounter c2 /\
  seq1 = seq2 /\ k1 = k2.
Proof.
  intros Hsalt Hlen Hi1 Hi2 Hr1 Hr2 Hq1 Hq2 Hk1 Hk2 H1 H2 Hiter.
  destruct (generateCounter_low_bytes c1 seq1 b1 Hlen Hq1 H1) as (m1 & -> & Hm1).
  destruct (generateCounter_low_bytes c2 seq2 b2) as (m2 & -> & Hm2);
    [congruence | assumption | assumption |].
  rewrite !iter_inc_low in Hiter by lia.
  apply app_inj_1 in Hiter; [| congruence].
  destruct Hiter as (<- & Hlow). injection Hlow as Hd Hm.
  destruct (generateCounter_inj c1 c2 seq1 seq2 (m1 ++ [0; 0]))
    as (Hs & Hr & Hq); try assumption.
  repeat split; try assumption.
  apply Nat2Z.inj. revert Hd Hm. Z.div_mod_to_equations. lia.
Qed.

Lemma block_counters_never_reused_witness :
  ssrc (set_ssrc 1000 rfc_context)
    = ssrc (set_lastSequenceNumber 9 (set_ssrc 1000 rfc_context)) /\
  rolloverCounter (set_ssrc 1000 rfc_context)
    = rolloverCounter (set_lastSequenceNumber 9 (set_ssrc 1000 rfc_context)) /\
  5 = 5 /\ 3%nat = 3%nat.
Proof.
  apply (block_counters_never_reused
           (set_ssrc 1000 rfc_context)
           (set_lastSequenceNumber 9 (set_ssrc 1000 rfc_context)) 5 5
           [48; 203; 188; 8; 134; 61; 143; 109; 212; 157; 179; 74; 154; 228; 0; 0]
           [48; 203; 188; 8; 134; 61; 143; 109; 212; 157; 179; 74; 154; 228; 0; 0]
           3 3);
    try (vm_compute; split; [discriminate | reflexivity]);
    vm_compute; reflexivity.
Defined.

(** ** The derivations outside the lengths that CreateContext lets through *)

Ltac list_shorter_than_7 l H :=
  do 7 (destruct l as [| ? l]; [reflexivity |]);
  exfalso; simpl in H; lia.

(** With a master salt of fewer than 7 bytes both derivations panic, whatever
    the master key: the loop that mixes the label in runs below index 0 of
    the buffer. *)
Theorem derivations_panic_on_short_salt (c : Context) :
  (length (masterSalt c) < 7)%nat ->
  generateSessionKey c = Panics (IndexOutOfRange (-1) (length (masterSalt c))) /\
  generateSessionSalt c = Panics (IndexOutOfRange (-1) (length (masterSalt c))).
Proof.
  intros Hs. unfold generateSessionKey, generateSessionSalt.
  revert Hs. generalize (masterSalt c). intros salt Hs.
  split; list_shorter_than_7 salt Hs.
Qed.

Lemma derivations_panic_on_short_salt_witness :
  generateSessionKey (mkContext 0 0 false 0 rfc_key [1; 2; 3] [] [] None)
  = Panics (IndexOutOfRange (-1) 3).
Proof.
  apply (derivations_panic_on_short_salt
           (mkContext 0 0 false 0 rfc_key [1; 2; 3] [] [] None)).
  simpl. lia.
Defined.

Lemma label_loop_total label n : forall j buf,
  Z.of_nat n <= j + 1 <= Z.of_nat (length buf) ->
  exists r, label_loop n j label buf = Returns r /\ length r = length buf.
Proof.
  induction n as [| n IH]; intros j buf Hj.
  - exists buf. split; reflexivity.
  - cbn [label_loop].
    destruct (Z.leb_spec 0 j); [| lia].
    destruct (Z.ltb_spec j (Z.of_nat (length buf))); [| lia].
    cbn [andb].
    destruct (IH (j - 1)
                (<[Z.to_nat j := Z.lxor (nth (Z.to_nat j) buf 0) (nth n label 0)]> buf))
      as (r & Hr & Hl).
    + rewrite length_insert. lia.
    + exists r. rewrite length_insert in Hl. split; assumption.
Qed.

(** With a master salt of at least 7 bytes and a master key that is no AES
    key (not 16, 24 or 32 bytes), both derivations return the key size error
    and no bytes. *)
Theorem derivations_fail_on_bad_key (c : Context) :
  (7 <= length (masterSalt c))%nat ->
  length (masterKey c) <> 16%nat ->
  length (masterKey c) <> 24%nat ->
  length (masterKey c) <> 32%nat ->
  generateSessionKey c = Returns ([], Some (CipherError (length (masterKey c)))) /\
  generateSessionSalt c = Returns ([], Some (CipherError (length (masterKey c)))).
Proof.
  intros Hs H16 H24 H32. unfold generateSessionKey, generateSessionSalt.
  change (length [labelEncryption; 0; 0; 0; 0; 0; 0]) with 7%nat.
  change (length [labelSalt; 0; 0; 0; 0; 0; 0]) with 7%nat.
  destruct (label_loop_total [labelEncryption; 0; 0; 0; 0; 0; 0] 7
              (Z.of_nat (length (masterSalt c)) - 1) (masterSalt c))
    as (r1 & -> & _); [lia |].
  destruct (label_loop_total [labelSalt; 0; 0; 0; 0; 0; 0] 7
              (Z.of_nat (length (masterSalt c)) - 1) (masterSalt c))
    as (r2 & -> & _); [lia |].
  cbn [mbind outcome_bind].
  rewrite (NewCipher_bad _ H16 H24 H32). split; reflexivity.
Qed.

Lemma derivations_fail_on_bad_key_witness :
  generateSessionKey (mkContext 0 0 false 0 [1; 2; 3] rfc_salt [] [] None)
  = Returns ([], Some (CipherError 3%nat)).
Proof.
  apply (derivations_fail_on_bad_key
           (mkContext 0 0 false 0 [1; 2; 3] rfc_salt [] [] None));
    simpl; lia.
Defined.

(** ** CreateContext: what it returns *)

(** The context of a successful [CreateContext]: it holds the master key and
    salt it was given, is bound to no stream, has counter 0 and a tracker not
    yet initialized, a session key of 16 bytes and a session salt of 14 bytes
    derived from the master pair, and a block cipher keyed with the session
    key. *)
Theorem CreateContext_fresh (mk ms : list Z) (profile : string) :
  length mk = keyLen ->
  length ms = saltLen ->
  exists c blk,
    CreateContext mk ms profile = Returns (Some c, None) /\
    masterKey c = mk /\ masterSalt c = ms /\
    ssrc c = 0 /\ rolloverCounter c = 0 /\
    rolloverHasProcessed c = false /\ lastSequenceNumber c = 0 /\
    sessionKey c =
      aes.encryptBlock (aes.expandKey mk) (derivation_block labelEncryption ms) /\
    sessionSalt c =
      take saltLen (aes.encryptBlock (aes.expandKey mk) (derivation_block labelSalt ms)) /\
    length (sessionKey c) = 16%nat /\ length (sessionSalt c) = 14%nat /\
    block c = Some blk /\ aes.NewCipher (sessionKey c) = inl blk.
Proof.
  intros Hk Hs. unfold CreateContext.
  rewrite Hk, Hs. cbn [Nat.eqb keyLen saltLen negb].
  rewrite generateSessionKey_spec by assumption. cbn [mbind outcome_bind].
  rewrite generateSessionSalt_spec by assumption. cbn [mbind outcome_bind].
  cbn [sessionKey set_sessionSalt set_sessionKey masterKey masterSalt
       ssrc rolloverCounter rolloverHasProcessed lastSequenceNumber sessionSalt block].
  rewrite NewCipher_16 by apply encryptBlock_length.
  eexists _, _. split; [reflexivity |].
  cbn [sessionKey set_sessionSalt set_sessionKey set_block masterKey masterSalt
       ssrc rolloverCounter rolloverHasProcessed lastSequenceNumber sessionSalt block].
  repeat split.
Qed.

Lemma CreateContext_fresh_witness :
  exists c blk,
    CreateContext rfc_key rfc_salt "" = Returns (Some c, None) /\
    masterKey c = rfc_key /\ masterSalt c = rfc_salt /\
    ssrc c = 0 /\ rolloverCounter c = 0 /\
    rolloverHasProcessed c = false /\ lastSequenceNumber c = 0 /\
    sessionKey c =
      aes.encryptBlock (aes.expandKey rfc_key)
        (derivation_block labelEncryption rfc_salt) /\
    sessionSalt c =
      take saltLen (aes.encryptBlock (aes.expandKey rfc_key)
                      (derivation_block labelSalt rfc_salt)) /\
    length (sessionKey c) = 16%nat /\ length (sessionSalt c) = 14%nat /\
    block c = Some blk /\ aes.NewCipher (sessionKey c) = inl blk.
Proof. apply (CreateContext_fresh rfc_key rfc_salt ""); reflexivity. Defined.

(** [CreateContext] checks the master key first and has no other failure
    than the two length errors: the errors of the derivations and of the
    block cipher are never returned, and it never panics. *)
Theorem CreateContext_only_length_errors (mk ms : list Z) (profile : string) :
  if negb (length mk =? 16)%nat
  then exists n, CreateContext mk ms profile = Returns (None, Some (MasterKeyLenError n))
  else if negb (length ms =? 14)%nat
  then exists n, CreateContext mk ms profile = Returns (None, Some (MasterSaltLenError n))
  else exists c, CreateContext mk ms profile = Returns (Some c, None).
Proof.
  destruct (Nat.eqb_spec (length mk) 16) as [Hk | Hk]; cbn [negb].
  - destruct (Nat.eqb_spec (length ms) 14) as [Hs | Hs]; cbn [negb].
    + destruct (CreateContext_ok mk ms profile Hk Hs) as (c & Hc & _).
      exists c. exact Hc.
    + unfold CreateContext, keyLen, saltLen. rewrite Hk. cbn [Nat.eqb negb].
      destruct (Nat.eqb_spec (length ms) 14); [contradiction |].
      eexists. reflexivity.
  - unfold CreateContext, keyLen.
    destruct (Nat.eqb_spec (length mk) 16); [contradiction |].
    eexists. reflexivity.
Qed.

(** ** DecryptPacket: what a successful call leaves *)

Lemma array_alloc_new (h : Heap) x : array (h ++ [x]) (length h) = x.
Proof. unfold array. rewrite list_lookup_middle by reflexivity. reflexivity. Qed.

(** The bytes before a write are not touched by it. *)
Lemma take_drop_before_splice o n (v l : list Z) r :
  (r + n = o)%nat -> (o <= length l)%nat ->
  take n (drop r (splice o v l)) = take n (drop r l).
Proof.
  intros Hrn Ho. unfold splice.
  rewrite !take_drop_commute. f_equal.
  rewrite Hrn. rewrite take_app_length' by (rewrite length_take; lia).
  reflexivity.
Qed.

(** The steps of a call that returns [true], with the store it leaves. *)
Lemma DecryptPacket_success `{Runtime} c packet h :
  wf_context c ->
  accepted c packet ->
  slice_ok h (Payload packet) ->
  slice_ok h (Raw packet) ->
  (10 <= len (Payload packet))%nat ->
  0 <= PayloadOffset packet <= Z.of_nat (cap (Raw packet)) ->
  (arr (Payload packet) <> arr (Raw packet) \/
   Z.of_nat (off (Raw packet)) + PayloadOffset packet
     = Z.of_nat (off (Payload packet))) ->
  let c' := updateRolloverCount (set_ssrc (SSRC packet) c) (SequenceNumber packet) in
  let n := len (Payload packet) in
  exists counter blk st,
    generateCounter c' (SequenceNumber packet) = Returns counter /\
    aes.NewCipher (sessionKey c) = inl blk /\
    DecryptPacket c packet h = (Returns true, st) /\
    ctx st = c' /\
    Payload (pkt st) =
      mkSlice (arr (Payload packet)) (off (Payload packet)) (n - 10)
        (cap (Payload packet)) /\
    len (Raw (pkt st)) = (Z.to_nat (PayloadOffset packet) + (n - 10))%nat /\
    read (heap st) (Payload (pkt st)) =
      take (n - 10)
        (cipher.XORKeyStream (cipher.mkStream blk counter) (read h (Payload packet))) /\
    read (heap st) (Raw (pkt st)) =
      take (Z.to_nat (PayloadOffset packet))
        (drop (off (Raw packet)) (array h (arr (Raw packet))))
      ++ read (heap st) (Payload (pkt st)).
Proof.
  intros Hwf Hacc Hok Hrok Hten Hpo Halias c' n.
  destruct (DecryptPacket_steps c packet h Hwf Hacc)
    as (counter & blk & Hc & _ & Hk & Hd).
  cbv zeta in Hd. rewrite Hd. clear Hd. fold c'.
  set (xs := cipher.XORKeyStream (cipher.mkStream blk counter) (read h (Payload packet))).
  assert (Hxs : length xs = n).
  { unfold xs. rewrite XORKeyStream_length. apply read_length, Hok. }
  destruct Hok as (Hcap & Harr). destruct Hrok as (Hrcap & Hrarr).
  set (a := arr (Payload packet)) in *. set (o := off (Payload packet)) in *.
  set (ra := arr (Raw packet)) in *. set (ro := off (Raw packet)) in *.
  set (rk := cap (Raw packet)) in *. set (po := Z.to_nat (PayloadOffset packet)).
  set (h1 := write_at h a o xs).
  assert (Ha1 : (a < length h)%nat) by (apply array_allocated; fold n in Hten; lia).
  assert (Hl1 : length (array h1 a) = length (array h a)).
  { unfold h1. rewrite array_write_same by exact Ha1. apply splice_length. lia. }
  set (trimmed := mkSlice a o (n - 10) (cap (Payload packet))).
  assert (Hr : reslice (Payload packet) (Z.of_nat (len (Payload packet)) - tagLen)
               = Returns trimmed).
  { unfold reslice, tagLen. fold n.
    destruct (Z.leb_spec 0 (Z.of_nat n - 10)); [| lia].
    destruct (Z.leb_spec (Z.of_nat n - 10) (Z.of_nat (cap (Payload packet)))); [| lia].
    cbn [andb]. unfold trimmed. do 2 f_equal. lia. }
  rewrite Hr.
  set (v := take (n - 10) xs).
  assert (Hv : length v = (n - 10)%nat) by (unfold v; rewrite length_take; lia).
  assert (Hread : read h1 trimmed = v).
  { unfold read, trimmed, h1. cbn [arr off len].
    rewrite array_write_same by exact Ha1.
    apply take_drop_splice; lia. }
  (* the header bytes are those of the store before the call *)
  assert (Hhead : take po (drop ro (array h1 ra)) = take po (drop ro (array h ra))).
  { destruct (decide (a = ra)) as [Heq | Hne].
    - destruct Halias as [Hd | Hoff]; [contradiction |].
      rewrite <- Heq. unfold h1. rewrite array_write_same by exact Ha1.
      apply take_drop_before_splice; unfold po; lia.
    - unfold h1. rewrite array_write_other by exact Hne. reflexivity. }
  assert (Hhl : length (take po (drop ro (array h ra))) = po).
  { rewrite length_take, length_drop. unfold po. lia. }
  unfold reslice. cbn [Raw PayloadOffset set_Payload].
  destruct (Z.leb_spec 0 (PayloadOffset packet)); [| lia].
  destruct (Z.leb_spec (PayloadOffset packet) (Z.of_nat (cap (Raw packet))));
    [| unfold rk in *; lia].
  cbn [andb]. rewrite Hread. unfold append. cbn [len cap arr off].
  fold ra ro rk po. rewrite Hv.
  destruct (Nat.leb_spec (po + (n - 10)) rk) as [Hfit | Hgrow].
  - (* in place *)
    exists counter, blk. eexists. split; [exact Hc |]. split; [exact Hk |].
    split; [reflexivity |].
    cbn [ctx heap pkt Payload Raw set_Raw set_Payload len].
    split; [reflexivity |]. split; [reflexivity |]. split; [reflexivity |].
    assert (Hpay : read (write_at h1 ra (ro + po) v) trimmed = v).
    { destruct (decide (ra = a)) as [Heq | Hne].
      - destruct Halias as [Hd | Hoff]; [congruence |].
        rewrite Heq. replace (ro + po)%nat with o by (unfold po; lia).
        unfold read, trimmed. cbn [arr off len].
        rewrite array_write_same by (unfold h1; rewrite write_at_length; exact Ha1).
        rewrite take_drop_splice by lia. rewrite <- Hv. apply firstn_all.
      - unfold read, trimmed. cbn [arr off len].
        rewrite array_write_other by exact Hne. exact Hread. }
    split; [exact Hpay |]. rewrite Hpay.
    destruct (Nat.eq_dec (po + (n - 10))%nat 0%nat) as [Hz | Hnz].
    + unfold read. cbn [arr off len]. rewrite Hz.
      assert (Hpo0 : po = 0%nat) by lia.
      assert (Hv0 : v = []) by (apply length_zero_iff_nil; lia).
      rewrite Hv0, Hpo0. reflexivity.
    + assert (Hra : (ra < length h)%nat) by (apply array_allocated; lia).
      assert (Hlr : length (array h1 ra) = length (array h ra)).
      { destruct (decide (a = ra)) as [Heq | Hne].
        - rewrite <- Heq. exact Hl1.
        - unfold h1. rewrite array_write_other by exact Hne. reflexivity. }
      unfold read. cbn [arr off len].
      rewrite array_write_same by (unfold h1; rewrite write_at_length; exact Hra).
      unfold splice. rewrite drop_app_le by (rewrite length_take; lia).
      rewrite <- take_drop_commute, Hhead, app_assoc.
      apply take_app_length'. rewrite length_app, Hhl. lia.
  - (* into a new array *)
    exists counter, blk. eexists. split; [exact Hc |]. split; [exact Hk |].
    split; [reflexivity |].
    cbn [ctx heap pkt Payload Raw set_Raw set_Payload len].
    split; [reflexivity |]. split; [reflexivity |]. split; [reflexivity |].
    assert (Hpay : read (h1 ++ [read h1 (mkSlice ra ro po rk) ++ v
                                  ++ replicate (growslice rk (po + (n - 10))
                                                - (po + (n - 10))) 0])
                     trimmed = v).
    { unfold read at 1. unfold trimmed at 1. cbn [arr off len].
      rewrite array_alloc by (unfold h1; rewrite write_at_length; exact Ha1).
      exact Hread. }
    split; [exact Hpay |]. rewrite Hpay.
    unfold read at 1. cbn [arr off len].
    rewrite array_alloc_new. cbn [drop].
    unfold read. cbn [arr off len]. rewrite Hhead, app_assoc.
    apply take_app_length'. rewrite length_app, Hhl. lia.
Qed.

(** A call that returns [true] on a parsed packet (payload of at least 10
    bytes, payload offset within the raw buffer, payload in another array
    than the raw buffer or starting at its payload offset) leaves the context
    bound and its tracker advanced, the payload cut by its last 10 bytes and
    holding the bytes before them under the key stream of the session key
    from the counter block of the advanced context, and the raw buffer
    holding the bytes it had before the payload offset followed by the new
    payload. *)
Theorem decrypt_leaves_header_and_payload `{Runtime}
    (c : Context) (packet : Packet) (h : Heap) :
  wf_context c ->
  accepted c packet ->
  slice_ok h (Payload packet) ->
  slice_ok h (Raw packet) ->
  (10 <= len (Payload packet))%nat ->
  0 <= PayloadOffset packet <= Z.of_nat (cap (Raw packet)) ->
  (arr (Payload packet) <> arr (Raw packet) \/
   Z.of_nat (off (Raw packet)) + PayloadOffset packet
     = Z.of_nat (off (Payload packet))) ->
  let c' := updateRolloverCount (set_ssrc (SSRC packet) c) (SequenceNumber packet) in
  let n := len (Payload packet) in
  exists counter blk st,
    generateCounter c' (SequenceNumber packet) = Returns counter /\
    aes.NewCipher (sessionKey c) = inl blk /\
    DecryptPacket c packet h = (Returns true, st) /\
    ctx st = c' /\
    Payload (pkt st) =
      mkSlice (arr (Payload packet)) (off (Payload packet)) (n - 10)
        (cap (Payload packet)) /\
    len (Raw (pkt st)) = (Z.to_nat (PayloadOffset packet) + (n - 10))%nat /\
    read (heap st) (Payload (pkt st)) =
      take (n - 10)
        (cipher.XORKeyStream (cipher.mkStream blk counter) (read h (Payload packet))) /\
    read (heap st) (Raw (pkt st)) =
      take (Z.to_nat (PayloadOffset packet))
        (drop (off (Raw packet)) (array h (arr (Raw packet))))
      ++ read (heap st) (Payload (pkt st)).
Proof. apply DecryptPacket_success. Qed.

Lemma decrypt_leaves_header_and_payload_witness :
  exists st,
    @DecryptPacket exact_runtime rfc_context (sample_packet 1000 5) roundtrip_heap
      = (Returns true, st) /\
    read (heap st) (Raw (pkt st)) = seqZ 0 12 ++ read (heap st) (Payload (pkt st)).
Proof.
  destruct (@decrypt_leaves_header_and_payload exact_runtime rfc_context
              (sample_packet 1000 5) roundtrip_heap)
    as (counter & blk & st & _ & _ & Hd & _ & _ & _ & _ & Hraw).
  - split; vm_compute; reflexivity.
  - left. vm_compute. reflexivity.
  - split; vm_compute; lia.
  - split; vm_compute; lia.
  - vm_compute. lia.
  - vm_compute. split; discriminate.
  - right. vm_compute. reflexivity.
  - exists st. split; [exact Hd | exact Hraw].
Defined.

Lemma take_zip_with_prefix (x : list Z) : forall t t' ks,
  take (length x) (zip_with Z.lxor (x ++ t) ks) =
  take (length x) (zip_with Z.lxor (x ++ t') ks).
Proof.
  induction x as [| a x IH]; intros t t' [| k ks]; simpl; try reflexivity.
  f_equal. apply IH.
Qed.

Lemma take_XORKeyStream_prefix s x t t' :
  length t = length t' ->
  take (length x) (cipher.XORKeyStream s (x ++ t)) =
  take (length x) (cipher.XORKeyStream s (x ++ t')).
Proof.
  intros Ht. unfold cipher.XORKeyStream, xor_bytes.
  rewrite !length_app, Ht. apply take_zip_with_prefix.
Qed.

(** The last 10 bytes of the payload are cut off without being looked at:
    two calls on the same context and packet, over stores in which the
    payload differs in its last 10 bytes only, both return [true] and leave
    the same context, the same payload slice and the same payload bytes. *)
Theorem tag_bytes_are_ignored `{Runtime}
    (c : Context) (packet : Packet) (h h' : Heap) (body tag tag' : list Z) :
  wf_context c ->
  accepted c packet ->
  slice_ok h (Payload packet) -> slice_ok h (Raw packet) ->
  slice_ok h' (Payload packet) -> slice_ok h' (Raw packet) ->
  0 <= PayloadOffset packet <= Z.of_nat (cap (Raw packet)) ->
  (arr (Payload packet) <> arr (Raw packet) \/
   Z.of_nat (off (Raw packet)) + PayloadOffset packet
     = Z.of_nat (off (Payload packet))) ->
  length tag = 10%nat -> length tag' = 10%nat ->
  read h (Payload packet) = body ++ tag ->
  read h' (Payload packet) = body ++ tag' ->
  exists st st',
    DecryptPacket c packet h = (Returns true, st) /\
    DecryptPacket c packet h' = (Returns true, st') /\
    ctx st = ctx st' /\
    Payload (pkt st) = Payload (pkt st') /\
    read (heap st) (Payload (pkt st)) = read (heap st') (Payload (pkt st')).
Proof.
  intros Hwf Hacc Hok Hrok Hok' Hrok' Hpo Halias Ht Ht' Hb Hb'.
  assert (Hn : len (Payload packet) = (length body + 10)%nat)
    by (rewrite <- (read_length h _ Hok), Hb, length_app; lia).
  destruct (DecryptPacket_success c packet h Hwf Hacc Hok Hrok) as
    (counter & blk & st & Hc & Hk & Hd & Hctx & Hp & _ & Hread & _);
    [lia | exact Hpo | exact Halias |].
  destruct (DecryptPacket_success c packet h' Hwf Hacc Hok' Hrok') as
    (counter' & blk' & st' & Hc' & Hk' & Hd' & Hctx' & Hp' & _ & Hread' & _);
    [lia | exact Hpo | exact Halias |].
  exists st, st'. repeat split; try assumption; try congruence.
  rewrite Hread, Hread', Hb, Hb'.
  assert (counter' = counter) by congruence. assert (blk' = blk) by congruence.
  subst counter' blk'.
  replace (len (Payload packet) - 10)%nat with (length body) by lia.
  apply take_XORKeyStream_prefix. congruence.
Qed.

Lemma tag_bytes_are_ignored_witness :
  exists st st',
    @DecryptPacket exact_runtime rfc_context (sample_packet 1000 5) roundtrip_heap
      = (Returns true, st) /\
    @DecryptPacket exact_runtime rfc_context (sample_packet 1000 5) tampered_heap
      = (Returns true, st') /\
    ctx st = ctx st' /\
    Payload (pkt st) = Payload (pkt st') /\
    read (heap st) (Payload (pkt st)) = read (heap st') (Payload (pkt st')).
Proof.
  apply (@tag_bytes_are_ignored exact_runtime rfc_context (sample_packet 1000 5)
           roundtrip_heap tampered_heap
           (take 16 sample_cipher) (drop 16 sample_cipher) (replicate 10 255)).
  - split; vm_compute; reflexivity.
  - left. vm_compute. reflexivity.
  - split; vm_compute; lia.
  - split; vm_compute; lia.
  - split; vm_compute; lia.
  - split; vm_compute; lia.
  - vm_compute. split; discriminate.
  - right. vm_compute. reflexivity.
  - vm_compute. reflexivity.
  - vm_compute. reflexivity.
  - vm_compute. reflexivity.
  - vm_compute. reflexivity.
Defined.

(** ** DecryptPacket: what a call that panics leaves *)

(** A payload of fewer than 10 bytes is found out only at the trim: by then
    the context is bound to the packet's stream, its tracker has taken the
    sequence number, and the payload bytes in the store have been replaced
    by their exclusive-or with the key stream.  The panic undoes none of
    it. *)
Theorem short_payload_panics_after_mutation `{Runtime}
    (c : Context) (packet : Packet) (h : Heap) :
  wf_context c ->
  accepted c packet ->
  slice_ok h (Payload packet) ->
  (len (Payload packet) < 10)%nat ->
  let c' := updateRolloverCount (set_ssrc (SSRC packet) c) (SequenceNumber packet) in
  exists counter blk st,
    generateCounter c' (SequenceNumber packet) = Returns counter /\
    aes.NewCipher (sessionKey c) = inl blk /\
    DecryptPacket c packet h =
      (Panics (SliceBoundsOutOfRange (Z.of_nat (len (Payload packet)) - 10)
                 (cap (Payload packet))), st) /\
    ctx st = c' /\
    ssrc (ctx st) = SSRC packet /\
    lastSequenceNumber (ctx st) = SequenceNumber packet /\
    rolloverHasProcessed (ctx st) = true /\
    pkt st = packet /\
    read (heap st) (Payload packet) =
      cipher.XORKeyStream (cipher.mkStream blk counter) (read h (Payload packet)).
Proof.
  intros Hwf Hacc Hok Hshort c'.
  destruct (DecryptPacket_steps c packet h Hwf Hacc)
    as (counter & blk & Hc & _ & Hk & Hd).
  cbv zeta in Hd. rewrite Hd. clear Hd. fold c'.
  set (xs := cipher.XORKeyStream (cipher.mkStream blk counter) (read h (Payload packet))).
  assert (Hxs : length xs = len (Payload packet)).
  { unfold xs. rewrite XORKeyStream_length. apply read_length, Hok. }
  unfold reslice, tagLen.
  destruct (Z.leb_spec 0 (Z.of_nat (len (Payload packet)) - 10)); [lia |].
  cbn [andb].
  exists counter, blk. eexists. split; [exact Hc |]. split; [exact Hk |].
  split; [reflexivity |]. cbn [ctx pkt heap].
  split; [reflexivity |].
  split; [unfold c'; rewrite updateRolloverCount_ssrc; reflexivity |].
  split; [apply updateRolloverCount_last |].
  split; [apply updateRolloverCount_processed |].
  split; [reflexivity |].
  destruct Hok as (Hcap & Harr).
  destruct (Nat.eq_dec (len (Payload packet)) 0%nat) as [Hz | Hnz].
  - unfold read at 1. rewrite Hz. symmetry. apply length_zero_iff_nil.
    exact (eq_trans Hxs Hz).
  - unfold read at 1.
    rewrite array_write_same by (apply array_allocated; lia).
    rewrite take_drop_splice by lia. rewrite <- Hxs. apply firstn_all.
Qed.

Lemma short_payload_panics_after_mutation_witness :
  exists st,
    @DecryptPacket exact_runtime rfc_context short_packet sample_heap =
      (Panics (SliceBoundsOutOfRange (-5) 26), st) /\
    ssrc (ctx st) = 1000 /\ lastSequenceNumber (ctx st) = 5.
Proof.
  destruct (@short_payload_panics_after_mutation exact_runtime rfc_context
              short_packet sample_heap)
    as (counter & blk & st & _ & _ & Hd & _ & Hs & Hl & _).
  - split; vm_compute; reflexivity.
  - left. vm_compute. reflexivity.
  - split; vm_compute; lia.
  - vm_compute. lia.
  - exists st. split; [exact Hd | split; [exact Hs | exact Hl]].
Defined.

(** A context without a block cipher, such as Go's zero value of [Context],
    never decrypts: an accepted call panics on the nil cipher after it has
    bound the context and advanced its tracker; the packet and the store are
    untouched. *)
Theorem context_without_cipher_panics `{Runtime}
    (c : Context) (packet : Packet) (h : Heap) :
  block c = None ->
  (length (sessionSalt c) <= 16)%nat ->
  accepted c packet ->
  DecryptPacket c packet h =
    (Panics NilDereference,
     mkState (updateRolloverCount (set_ssrc (SSRC packet) c) (SequenceNumber packet))
       packet h).
Proof.
  intros Hb Hs Hacc. unfold DecryptPacket.
  apply stream_check_false in Hacc. rewrite Hacc.
  set (c' := updateRolloverCount (set_ssrc (SSRC packet) c) (SequenceNumber packet)).
  destruct (updateRolloverCount_keys (set_ssrc (SSRC packet) c) (SequenceNumber packet))
    as (Hsalt & _ & Hblk).
  fold c' in Hsalt, Hblk. cbn [sessionSalt block set_ssrc] in Hsalt, Hblk.
  rewrite generateCounter_fields.
  destruct (salt_loop_total (sessionSalt c') 0
              ([0; 0; 0; 0] ++ be32 (ssrc c') ++ be32 (rolloverCounter c')
                 ++ be32 (uint32 (Z.shiftl (SequenceNumber packet) 16))))
    as (counter & -> & _).
  { rewrite Hsalt. unfold be32. cbn [app length]. lia. }
  cbn [mbind outcome_bind]. rewrite Hblk, Hb. reflexivity.
Qed.

Lemma context_without_cipher_panics_witness :
  @DecryptPacket exact_runtime zero_context (sample_packet 1000 5) sample_heap =
  (Panics NilDereference,
   mkState (updateRolloverCount (set_ssrc 1000 zero_context) 5)
     (sample_packet 1000 5) sample_heap).
Proof.
  apply (@context_without_cipher_panics exact_runtime zero_context
           (sample_packet 1000 5) sample_heap).
  - reflexivity.
  - simpl. lia.
  - left. reflexivity.
Defined.

(** ** DecryptPacket: no panic on well-formed packets *)

Lemma DecryptPacket_returns `{Runtime} c packet h :
  wf_context c -> packet_ok packet ->
  exists b, fst (DecryptPacket c packet h) = Returns b.
Proof.
  intros Hwf ((Hten & Hcap) & Hpo).
  destruct (negb (ssrc c =? 0) && negb (ssrc c =? SSRC packet)) eqn:E.
  - apply stream_check_true in E. destruct E as (H0 & H1).
    rewrite DecryptPacket_mismatch by assumption. exists false. reflexivity.
  - apply stream_check_false in E.
    destruct (DecryptPacket_steps c packet h Hwf E) as (counter & blk & _ & _ & _ & Hd).
    cbv zeta in Hd. rewrite Hd. clear Hd.
    unfold reslice, tagLen.
    destruct (Z.leb_spec 0 (Z.of_nat (len (Payload packet)) - 10)); [| lia].
    destruct (Z.leb_spec (Z.of_nat (len (Payload packet)) - 10)
                (Z.of_nat (cap (Payload packet)))); [| lia].
    cbn [andb Raw PayloadOffset set_Payload].
    destruct (Z.leb_spec 0 (PayloadOffset packet)); [| lia].
    destruct (Z.leb_spec (PayloadOffset packet) (Z.of_nat (cap (Raw packet)))); [| lia].
    cbn [andb]. destruct (append _ _ _) as [raw h2]. exists true. reflexivity.
Qed.

(** On a context in use, as [CreateContext] returns it, no call of a run
    panics when every packet holds the 10 bytes of the tag within its
    payload and has its payload offset within the raw buffer: each call
    returns [true] or [false]. *)
Theorem run_never_panics `{Runtime} (calls : list (Packet * Heap)) : forall c : Context,
  wf_context c ->
  Forall (fun call => packet_ok (fst call)) calls ->
  Forall (fun r => exists b, fst r = Returns b) (run c calls).
Proof.
  induction calls as [| [packet h] calls IH]; intros c Hwf Hall; [constructor |].
  inversion Hall as [| ? ? Hp Hrest]; subst. cbn [run].
  constructor.
  - apply DecryptPacket_returns; assumption.
  - apply IH; [apply wf_context_preserved, Hwf | exact Hrest].
Qed.

Lemma run_never_panics_witness :
  Forall (fun r => exists b, fst r = Returns b)
    (@run exact_runtime rfc_context
       [(sample_packet 1000 5, sample_heap); (sample_packet 2000 6, sample_heap)]).
Proof.
  apply (@run_never_panics exact_runtime
           [(sample_packet 1000 5, sample_heap); (sample_packet 2000 6, sample_heap)]
           rfc_context).
  - split; vm_compute; reflexivity.
  - repeat (constructor; [vm_compute; repeat split; try lia; discriminate |]).
    constructor.
Defined.

(** ** The rollover counter: duplicates and the start of a stream *)

(** A sequence number that comes twice in a row is counted once: the second
    call changes nothing. *)
Theorem duplicate_sequence_number_is_idle (c : Context) (seq : Z) :
  updateRolloverCount (updateRolloverCount c seq) seq = updateRolloverCount c seq.
Proof.
  rewrite (updateRolloverCount_is_table (updateRolloverCount c seq) seq).
  rewrite updateRolloverCount_processed, updateRolloverCount_last.
  unfold rollover_table. cbn [negb].
  assert (Hsame : forall c0, rolloverHasProcessed c0 = true ->
            lastSequenceNumber c0 = seq ->
            set_lastSequenceNumber seq
              (set_rolloverHasProcessed true (set_rolloverCounter (rolloverCounter c0) c0))
            = c0).
  { intros [] Hp Hl. simpl in *. subst. reflexivity. }
  split_cmp; cbn [andb]; try lia;
    apply Hsame;
    (apply updateRolloverCount_processed || apply updateRolloverCount_last).
Qed.

(** With the counter still at 0, a sequence number above 65435 after a last
    one below 100 takes the counter to 2^32 - 1: the decrement has no floor. *)
Theorem late_packet_at_start_underflows (c : Context) (seq : Z) :
  rolloverHasProcessed c = true ->
  rolloverCounter c = 0 ->
  lastSequenceNumber c < 100 ->
  seq > 65435 ->
  rolloverCounter (updateRolloverCount c seq) = 4294967295.
Proof.
  intros Hp Hr Hl Hs. rewrite updateRolloverCount_is_table, Hp, Hr.
  unfold rollover_table. cbn [negb].
  split_cmp; cbn [andb]; try lia; reflexivity.
Qed.

Lemma late_packet_at_start_underflows_witness :
  rolloverCounter (updateRolloverCount (updateRolloverCount rfc_context 5) 65500)
  = 4294967295.
Proof.
  apply (late_packet_at_start_underflows (updateRolloverCount rfc_context 5) 65500);
    vm_compute; reflexivity.
Defined.
